(** * URL shortener backend: short-code allocation, redirect and click
    recording, analytics time frames, ShortLink schema validation.

  Shallow embedding of
  - [UrlController] ([shortenUrl], [bulkShorten], [redirectUrl],
    [getUserUrls], [getUrlAnalytics], [deleteUrl]) and the analytics
    controllers ([getUrlAnalytics], [getUserAnalytics],
    [getSystemAnalytics]);
  - the [Url] schema (validators, pre-save hook, instance methods,
    [getExpiredUrls], [cleanupExpiredUrls]) and
    [analyticsSchema.methods.isUniqueVisitor];
  - the validation middleware ([validateAnalyticsQuery],
    [validateShortCode], [sanitizeInput]).

  Conventions.  A [Date] is its number of milliseconds since the epoch.
  A string is the sequence of the bytes of its UTF-8 encoding.
  A collection is the list of its documents in natural order, so that
  [findOne] is the first match.  A handler's outcome is the response it
  sends (or the error it hands to [next]) together with the collection it
  leaves behind.  Loops that the source writes as [while] are run with a
  fuel argument; [None] means that the loop is still running when the fuel
  is spent. *)

From Stdlib Require Import ZArith String Ascii List Bool Lia.
Import ListNotations.

Local Open Scope string_scope.
Local Open Scope Z_scope.

(** ** JavaScript values used by the handlers *)

Module JS.

(** [if (x)] and [x || d] on a possibly absent string: [undefined], [null]
    and the empty string are falsy. *)
Definition truthy (x : option string) : bool :=
  match x with
  | Some s => negb (String.eqb s "")
  | None => false
  end.

Definition or_else (x : option string) (d : string) : string :=
  match x with
  | Some s => if String.eqb s "" then d else s
  | None => d
  end.

(** [a || b] where both sides may be absent. *)
Definition or_opt (a b : option string) : option string :=
  if truthy a then a else b.

(** A string is held as the bytes of its UTF-8 encoding.  The white space
    and line terminators that [String.prototype.trim] removes are
    - U+0009 to U+000D and U+0020, one byte each;
    - U+00A0, two bytes (C2 A0);
    - U+1680, U+2000 to U+200A, U+2028, U+2029, U+202F, U+205F, U+3000 and
      U+FEFF, three bytes each. *)
Definition is_space (c : ascii) : bool :=
  let n := N_of_ascii c in
  (N.leb 9 n && N.leb n 13) || N.eqb n 32.

Definition is_space2 (a b : ascii) : bool :=
  N.eqb (N_of_ascii a) 194 && N.eqb (N_of_ascii b) 160.

Definition is_space3 (a b c : ascii) : bool :=
  let x := N_of_ascii a in
  let y := N_of_ascii b in
  let z := N_of_ascii c in
  (N.eqb x 225 && N.eqb y 154 && N.eqb z 128)
  || (N.eqb x 226 && N.eqb y 128
      && ((N.leb 128 z && N.leb z 138) || N.eqb z 168 || N.eqb z 169
          || N.eqb z 175))
  || (N.eqb x 226 && N.eqb y 129 && N.eqb z 159)
  || (N.eqb x 227 && N.eqb y 128 && N.eqb z 128)
  || (N.eqb x 239 && N.eqb y 187 && N.eqb z 191).

Fixpoint trimStart (s : string) : string :=
  match s with
  | EmptyString => s
  | String a r =>
      if is_space a then trimStart r
      else
        match r with
        | EmptyString => s
        | String b r2 =>
            if is_space2 a b then trimStart r2
            else
              match r2 with
              | EmptyString => s
              | String c r3 => if is_space3 a b c then trimStart r3 else s
              end
        end
  end.

(** Nothing but white space. *)
Definition blank (s : string) : bool := String.eqb (trimStart s) "".

(** The string up to the point from which only white space follows. *)
Fixpoint trimEnd (s : string) : string :=
  match s with
  | EmptyString => s
  | String a r => if blank s then EmptyString else String a (trimEnd r)
  end.

Definition trim (s : string) : string := trimEnd (trimStart s).

(** The UTF-16 code units that a byte of the encoding stands for: none for
    a continuation byte, two for the first byte of a four-byte sequence (a
    surrogate pair), one for any other. *)
Definition units (c : ascii) : Z :=
  let n := N_of_ascii c in
  if N.leb 128 n && N.leb n 191 then 0
  else if N.leb 240 n then 2
  else 1.

(** [s.length], in UTF-16 code units. *)
Fixpoint length (s : string) : Z :=
  match s with
  | EmptyString => 0
  | String c r => units c + length r
  end.


End JS.

(** ** Errors and responses *)

Definition Date := Z.

Inductive Error :=
| TypeError (msg : string)
| ValidationError (errors : list (string * string))
| DuplicateKeyError (path : string)
| MongoError (msg : string)
| GeoError (msg : string).

Inductive Res (A : Type) :=
| Ok (a : A)
| Throw (e : Error).
Arguments Ok {A} a.
Arguments Throw {A} e.

Definition bindRes {A B} (r : Res A) (k : A -> Res B) : Res B :=
  match r with
  | Ok a => k a
  | Throw e => Throw e
  end.

Notation "'try!' x <- r ; k" := (bindRes r (fun x => k))
  (at level 61, x name, r at next level, right associativity).

(** ** Documents *)

(** The [clickData] object that [redirectUrl] builds. *)
Record ClickData := mkClick {
  click_timestamp : Date;
  click_ip : option string;
  click_userAgent : option string;
  click_referer : option string;
  click_country : string;
  click_city : string
}.

(** A [Url] document: the paths of [urlSchema] that the handlers read or
    write, with the [_id] and the [createdAt] that Mongoose adds.  The
    schema is strict: [customCode] and [clickHistory], which [UrlController]
    names in its documents, queries and updates, are no paths of it, so that
    no stored document has them. *)
Record Url := mkUrl {
  _id : nat;
  originalUrl : string;
  shortCode : string;
  shortUrl : string;
  userId : option nat;
  clicks : Z;
  uniqueClicks : Z;
  isActive : bool;
  expiresAt : option Date;
  lastAccessedAt : option Date;
  analytics_totalClicks : Z;
  analytics_uniqueVisitors : Z;
  createdAt : Date
}.

Definition Store := list Url.

(** An [Analytics] document (click event), restricted to the paths that
    [isUniqueVisitor] queries. *)
Record Analytics := mkAnalytics {
  urlId : nat;
  ipAddress : string;
  timestamp : Date
}.

(** ** Collection operations *)

Module Db.

Definition findOne (q : Url -> bool) (s : Store) : option Url := find q s.

(** Apply [f] to the first document matching [q]. *)
Fixpoint updateOne (q : Url -> bool) (f : Url -> Url) (s : Store) : Store :=
  match s with
  | [] => []
  | u :: r => if q u then f u :: r else u :: updateOne q f r
  end.

Definition byId (id : nat) (u : Url) : bool := Nat.eqb (_id u) id.

(** [{ shortCode: code }].  A filter is cast to the schema before it is
    sent, which runs the path's [trim] setter on the value. *)
Definition byShortCode (code : string) (u : Url) : bool :=
  String.eqb (shortCode u) (JS.trim code).

Definition findById (id : nat) (s : Store) : option Url := findOne (byId id) s.

(** A fresh [ObjectId]: larger than every [_id] in the collection. *)
Definition freshId (s : Store) : nat :=
  S (fold_right (fun u m => Nat.max (_id u) m) 0%nat s).

End Db.

(** ** The world a request runs in *)

Inductive DbOp := OpFindOne | OpFindByIdAndUpdate | OpFindOneAndUpdate | OpSave.

(** [now] is the instant read by [new Date()] while the request is served;
    [BASE_URL] is the environment variable; [fault op] is the rejection, if
    any, with which the persistence layer answers operation [op]. *)
Record World := mkWorld {
  now : Date;
  BASE_URL : option string;
  fault : DbOp -> option Error
}.

Definition attempt {A} (w : World) (op : DbOp) (a : A) : Res A :=
  match fault w op with
  | Some e => Throw e
  | None => Ok a
  end.

(** ** The Url schema *)

Module Schema.

Definition set_originalUrl (v : string) (u : Url) : Url :=
  mkUrl (_id u) v (shortCode u) (shortUrl u) (userId u)
        (clicks u) (uniqueClicks u) (isActive u) (expiresAt u)
        (lastAccessedAt u) (analytics_totalClicks u)
        (analytics_uniqueVisitors u) (createdAt u).

Definition set_shortCode (v : string) (u : Url) : Url :=
  mkUrl (_id u) (originalUrl u) v (shortUrl u) (userId u)
        (clicks u) (uniqueClicks u) (isActive u) (expiresAt u)
        (lastAccessedAt u) (analytics_totalClicks u)
        (analytics_uniqueVisitors u) (createdAt u).

Definition set_shortUrl (v : string) (u : Url) : Url :=
  mkUrl (_id u) (originalUrl u) (shortCode u) v (userId u)
        (clicks u) (uniqueClicks u) (isActive u) (expiresAt u)
        (lastAccessedAt u) (analytics_totalClicks u)
        (analytics_uniqueVisitors u) (createdAt u).

Definition set_isActive (v : bool) (u : Url) : Url :=
  mkUrl (_id u) (originalUrl u) (shortCode u) (shortUrl u)
        (userId u) (clicks u) (uniqueClicks u) v (expiresAt u)
        (lastAccessedAt u) (analytics_totalClicks u)
        (analytics_uniqueVisitors u) (createdAt u).

(** [{ $inc: { clicks: 1 }, $push: { clickHistory: clickData } }] as
    [findByIdAndUpdate] applies it.  The update is cast to the schema, which
    has no [clickHistory] path: the [$push] is dropped and [clickData] with
    it, only [clicks] is written. *)
Definition inc_clicks_push (clickData : ClickData) (u : Url) : Url :=
  mkUrl (_id u) (originalUrl u) (shortCode u) (shortUrl u)
        (userId u) (clicks u + 1) (uniqueClicks u) (isActive u) (expiresAt u)
        (lastAccessedAt u) (analytics_totalClicks u)
        (analytics_uniqueVisitors u) (createdAt u).

(** The character class [[a-zA-Z0-9_-]]. *)
Definition code_char (c : ascii) : bool :=
  let n := N_of_ascii c in
  (N.leb 97 n && N.leb n 122) || (N.leb 65 n && N.leb n 90)
  || (N.leb 48 n && N.leb n 57) || N.eqb n 95 || N.eqb n 45.

(** [match: /^[a-zA-Z0-9_-]+$/] *)
Definition code_match (s : string) : bool :=
  negb (String.eqb s "") && forallb code_char (list_ascii_of_string s).

(** The validator of [expiresAt]: [!date || date > new Date()]. *)
Definition expiresAt_validator (now : Date) (date : option Date) : bool :=
  match date with
  | None => true
  | Some d => now <? d
  end.

(** The validators of one path, in the order in which Mongoose runs them
    ([required] first, then the others as the schema lists them), each with
    its message: the first that fails gives the path's error, a path having
    at most one. *)
Fixpoint check (path : string) (validators : list (bool * string))
  : list (string * string) :=
  match validators with
  | [] => []
  | (ok, msg) :: rest => if ok then check path rest else [(path, msg)]
  end.

Section Validation.

(** [validator.isURL(url, { protocols: ['http','https'],
    require_protocol: true })], from the validator package. *)
Variable isURL : string -> bool.

(** The schema's setters, run when a path is assigned: [trim: true]. *)
Definition cast (u : Url) : Url :=
  set_shortCode (JS.trim (shortCode u))
    (set_originalUrl (JS.trim (originalUrl u)) u).

(** Document validation, path by path in schema order.  A String path
    that is [required] rejects the empty string; an absent string and the
    empty one are not told apart here, both failing [required]. *)
Definition validationErrors (now : Date) (u : Url) : list (string * string) :=
  check "originalUrl"
        [(negb (String.eqb (originalUrl u) ""), "Original URL is required");
         (isURL (originalUrl u),
          "Please provide a valid URL with http:// or https://")]
  ++ check "shortCode"
        [(negb (String.eqb (shortCode u) ""), "Path `shortCode` is required.");
         (3 <=? JS.length (shortCode u),
          "Short code must be at least 3 characters");
         (JS.length (shortCode u) <=? 20,
          "Short code cannot exceed 20 characters");
         (code_match (shortCode u),
          "Short code can only contain letters, numbers, hyphens, and underscores")]
  ++ check "shortUrl"
        [(negb (String.eqb (shortUrl u) ""), "Path `shortUrl` is required.")]
  ++ check "clicks" [(0 <=? clicks u, "Clicks cannot be negative")]
  ++ check "uniqueClicks"
        [(0 <=? uniqueClicks u, "Unique clicks cannot be negative")]
  ++ check "expiresAt"
        [(expiresAt_validator now (expiresAt u),
          "Expiration date must be in the future")].

Definition validate (now : Date) (u : Url) : Res Url :=
  match validationErrors now u with
  | [] => Ok u
  | errs => Throw (ValidationError errs)
  end.

(** The pre-save hook's loop:
    [while (!isUnique) { shortCode = nanoid(8); ... findOne ... }].
    [nanoid] is the sequence of identifiers the random source yields;
    the result carries the number of identifiers drawn. *)
Fixpoint nanoidLoop (fuel : nat) (w : World) (s : Store)
         (nanoid : nat -> string) (i : nat) : option (Res (string * nat)) :=
  match fuel with
  | O => None
  | S fuel' =>
      let code := nanoid i in
      match attempt w OpFindOne (Db.findOne (Db.byShortCode code) s) with
      | Throw e => Some (Throw e)
      | Ok None => Some (Ok (code, S i))
      | Ok (Some _) => nanoidLoop fuel' w s nanoid (S i)
      end
  end.

(** [urlSchema.pre('save')]: generate the short code if there is none,
    then set [shortUrl]. *)
Definition preSave (fuel : nat) (w : World) (s : Store)
           (nanoid : nat -> string) (u : Url) : option (Res Url) :=
  let withUrl (u : Url) :=
    set_shortUrl (JS.or_else (BASE_URL w) "http://localhost:3000"
                  ++ "/" ++ shortCode u) u in
  if String.eqb (shortCode u) "" then
    match nanoidLoop fuel w s nanoid 0 with
    | None => None
    | Some (Throw e) => Some (Throw e)
    | Some (Ok (code, _)) => Some (Ok (withUrl (set_shortCode code u)))
    end
  else Some (Ok (withUrl u)).

(** The unique index on [shortCode]: another document holds the code. *)
Definition duplicateCode (s : Store) (u : Url) : bool :=
  existsb (fun v => negb (Nat.eqb (_id v) (_id u))
                    && String.eqb (shortCode v) (shortCode u)) s.

(** Write [u]: replace the document with its [_id], or insert it. *)
Definition write (s : Store) (u : Url) : Store :=
  if existsb (Db.byId (_id u)) s
  then Db.updateOne (Db.byId (_id u)) (fun _ => u) s
  else (s ++ [u])%list.

(** [doc.save()]: validation (the built-in first pre-save step), the
    schema's pre-save hook, then the write under the unique index. *)
Definition save (fuel : nat) (w : World) (s : Store)
           (nanoid : nat -> string) (u : Url) : option (Res (Url * Store)) :=
  match validate (now w) u with
  | Throw e => Some (Throw e)
  | Ok u =>
      match preSave fuel w s nanoid u with
      | None => None
      | Some (Throw e) => Some (Throw e)
      | Some (Ok u') =>
          Some (try! _ <- attempt w OpSave tt ;
                if duplicateCode s u' then Throw (DuplicateKeyError "shortCode")
                else Ok (u', write s u'))
      end
  end.

(** [urlSchema.methods.incrementClicks] *)
Definition incrementClicks (fuel : nat) (w : World) (s : Store)
           (nanoid : nat -> string) (u : Url) : option (Res (Url * Store)) :=
  save fuel w s nanoid
    (mkUrl (_id u) (originalUrl u) (shortCode u) (shortUrl u)
           (userId u) (clicks u + 1) (uniqueClicks u) (isActive u)
           (expiresAt u) (Some (now w)) (analytics_totalClicks u + 1)
           (analytics_uniqueVisitors u) (createdAt u)).

(** [urlSchema.methods.incrementUniqueClicks] *)
Definition incrementUniqueClicks (fuel : nat) (w : World) (s : Store)
           (nanoid : nat -> string) (u : Url) : option (Res (Url * Store)) :=
  save fuel w s nanoid
    (mkUrl (_id u) (originalUrl u) (shortCode u) (shortUrl u)
           (userId u) (clicks u) (uniqueClicks u + 1) (isActive u)
           (expiresAt u) (lastAccessedAt u) (analytics_totalClicks u)
           (analytics_uniqueVisitors u + 1) (createdAt u)).

End Validation.

(** [urlSchema.methods.isExpired]: [this.expiresAt && this.expiresAt < new Date()] *)
Definition isExpired (now : Date) (u : Url) : bool :=
  match expiresAt u with
  | None => false
  | Some d => d <? now
  end.

(** [urlSchema.methods.isAccessible] *)
Definition isAccessible (now : Date) (u : Url) : bool :=
  isActive u && negb (isExpired now u).

(** [urlSchema.virtual('status')] *)
Definition status (now : Date) (u : Url) : string :=
  if negb (isActive u) then "inactive"
  else if isExpired now u then "expired"
  else "active".

(** [analyticsSchema.methods.isUniqueVisitor]: no event of the same link
    and address in the last 24 hours. *)
Definition isUniqueVisitor (now : Date) (events : list Analytics)
           (this : Analytics) : bool :=
  match find (fun e => Nat.eqb (urlId e) (urlId this)
                       && String.eqb (ipAddress e) (ipAddress this)
                       && (now - 24 * 60 * 60 * 1000 <=? timestamp e)) events with
  | Some _ => false
  | None => true
  end.

End Schema.

(** ** Responses *)

Record CreatedData := mkCreated {
  data_id : nat;
  data_originalUrl : string;
  data_shortCode : string;
  data_shortUrl : string;
  data_createdAt : Date;
  data_expiresAt : option Date
}.

(** What a handler does with the response object:
    - [Json]: [res.status(status).json({ message, error })];
    - [Created]: [res.status(201).json({ message: 'URL shortened
      successfully', data })];
    - [Deleted]: [res.json({ message: 'URL deleted successfully',
      data: { id } })];
    - [Redirect]: [res.redirect(status, location)];
    - [Next]: [next(error)], nothing being sent by the handler. *)
Inductive Response :=
| Json (status : Z) (message error : string)
| Created (data : CreatedData)
| Deleted (id : nat)
| Redirect (status : Z) (location : string)
| Next (e : Error).

(** ** Geolocation provider *)

Record Geo := mkGeo { geo_country : string; geo_city : string }.

(** What [geoip.lookup(ip)] does: throw, or return [null] or a record. *)
Inductive GeoResult :=
| GeoThrows (e : Error)
| GeoReturns (geo : option Geo).

(** The module variable [geoip]: [null] until (and unless) the dynamic
  import of the provider in [initGeoip] succeeds. *)
Definition GeoIp := option (option string -> GeoResult).

(** ** Requests *)

(** The creation request.  [body_expiresAt] is [None] when
    [req.body.expiresAt] is falsy (absent, [null], the number 0, the empty
    string), and otherwise the instant that [new Date(expiresAt)] denotes (a
    value that denotes none is not a request of the model). *)
Record ShortenReq := mkShortenReq {
  body_originalUrl : string;
  body_customCode : option string;
  body_expiresAt : option Date;
  req_user : option nat
}.

Record RedirectReq := mkRedirectReq {
  params_shortCode : string;
  req_ip : option string;
  remoteAddress : option string;
  header_userAgent : option string;
  header_referer : option string
}.

(** What other requests commit while a handler is suspended: the handler's
  [k]-th [await] sees [other k s] where it left [s]. *)
Definition Interference := nat -> Store -> Store.

Definition quiet : Interference := fun _ s => s.

(** ** UrlController *)

Module UrlController.

Import Db Schema.

(** [{ customCode }] on a stored document: the path is none of the
    schema's, and no stored document has such a field. *)
Definition byCustomCode (c : string) (u : Url) : bool := false.

(** [{ $or: [{ shortCode: customCode }, { customCode }] }] *)
Definition customQuery (c : string) (u : Url) : bool :=
  byShortCode c u || byCustomCode c u.

(** [{ shortCode, isActive: true,
       $or: [{ expiresAt: null }, { expiresAt: { $gt: new Date() } }] }] *)
Definition redirectQuery (code : string) (now : Date) (u : Url) : bool :=
  byShortCode code u
  && isActive u
  && match expiresAt u with
     | None => true
     | Some d => now <? d
     end.

(** [{ _id: id, userId: req.user.id }] *)
Definition ownedQuery (id user : nat) (u : Url) : bool :=
  Nat.eqb (_id u) id
  && match userId u with
     | Some o => Nat.eqb o user
     | None => false
     end.

(** State of the uniqueness loop when it stops: the outcome, the number of
      codes drawn from the generator, the number of awaits, the collection. *)
Record LoopEnd := mkLoopEnd {
    loop_result : Res string;
    loop_drawn : nat;
    loop_awaits : nat;
    loop_store : Store
  }.

(** [while (await Url.findOne({ shortCode })) shortCode = generateShortCode();]
    [gen] is the sequence of codes that [generateShortCode] yields, [i]
    the number already drawn, [k] the number of awaits so far. *)
Fixpoint ensureUnique (fuel : nat) (w : World) (other : Interference)
         (gen : nat -> string) (i k : nat) (s : Store) (code : string)
  : option LoopEnd :=
  match fuel with
  | O => None
  | S fuel' =>
      let s := other k s in
      match attempt w OpFindOne (findOne (byShortCode code) s) with
      | Throw e => Some (mkLoopEnd (Throw e) i (S k) s)
      | Ok None => Some (mkLoopEnd (Ok code) i (S k) s)
      | Ok (Some _) => ensureUnique fuel' w other gen (S i) (S k) s (gen i)
      end
  end.

(** [const urlData = { originalUrl, shortCode, shortUrl, customCode, userId,
    expiresAt }] as [Url.create] instantiates it: [customCode], no path of
    the schema, is left out; the schema's defaults and a fresh [_id] are
    filled in.  [expiresAt] is [expiresAt ? new Date(expiresAt) : null]. *)
Definition urlDataOf (w : World) (req : ShortenReq) (code : string) (id : nat) : Url :=
  mkUrl id (body_originalUrl req) code
        (JS.or_else (BASE_URL w) "http://localhost:5052" ++ "/" ++ code)
        (req_user req) 0 0 true
        (match body_expiresAt req with
         | Some date => Some date
         | None => None
         end)
        None 0 0 (now w).

(** The [data] of the 201 response, read off the created document. *)
Definition dataOf (url : Url) : CreatedData :=
  mkCreated (_id url) (originalUrl url) (shortCode url) (shortUrl url)
            (createdAt url) (expiresAt url).

Section Handlers.

Variable isURL : string -> bool.

(** [validateUrl] of utils/validateUrl.js. *)
Variable validateUrl : string -> bool.

(** [UrlController.shortenUrl].  [nanoid] feeds the schema's pre-save
    hook. *)
Definition shortenUrl (fuel : nat) (w : World) (other : Interference)
           (gen nanoid : nat -> string) (req : ShortenReq) (s : Store)
  : option (Response * Store) :=
  if negb (validateUrl (body_originalUrl req)) then
    Some (Json 400 "Invalid URL format" "INVALID_URL", s)
  else
    let custom := JS.truthy (body_customCode req) in
    let c := JS.or_else (body_customCode req) "" in
    let s1 := if custom then other 0%nat s else s in
    let existingCustom :=
      if custom then attempt w OpFindOne (findOne (customQuery c) s1)
      else Ok None in
    match existingCustom with
    | Throw e => Some (Next e, s1)
    | Ok (Some _) => Some (Json 409 "Custom code already taken" "CODE_TAKEN", s1)
    | Ok None =>
        let k := if custom then 1%nat else 0%nat in
        let i := if custom then 0%nat else 1%nat in
        let first := if custom then c else gen 0%nat in
        match ensureUnique fuel w other gen i k s1 first with
        | None => None
        | Some (mkLoopEnd (Throw e) _ _ s2) => Some (Next e, s2)
        | Some (mkLoopEnd (Ok code) _ k' s2) =>
            let s3 := other k' s2 in
            let urlData := urlDataOf w req code (freshId s3) in
            match save isURL fuel w s3 nanoid (cast urlData) with
            | None => None
            | Some (Throw e) => Some (Next e, s3)
            | Some (Ok (url, s4)) => Some (Created (dataOf url), s4)
            end
        end
    end.

End Handlers.

(** [const ip = req.ip || req.connection.remoteAddress] *)
Definition clientIp (req : RedirectReq) : option string :=
  JS.or_opt (req_ip req) (remoteAddress req).

(** [const clickData = { timestamp, ip, userAgent, referer, country, city }] *)
Definition clickDataOf (w : World) (req : RedirectReq) (geo : option Geo) : ClickData :=
  mkClick (now w) (clientIp req) (header_userAgent req) (header_referer req)
          (JS.or_else (option_map geo_country geo) "Unknown")
          (JS.or_else (option_map geo_city geo) "Unknown").

(** [UrlController.redirectUrl] *)
Definition redirectUrl (w : World) (geoip : GeoIp) (req : RedirectReq)
           (s : Store) : Response * Store :=
  match attempt w OpFindOne
                (findOne (redirectQuery (params_shortCode req) (now w)) s) with
  | Throw e => (Next e, s)
  | Ok None => (Json 404 "Short URL not found or expired" "URL_NOT_FOUND", s)
  | Ok (Some url) =>
      match geoip with
      | None =>
          (Next (TypeError "Cannot read properties of null (reading 'lookup')"), s)
      | Some lookup =>
          match lookup (clientIp req) with
          | GeoThrows e => (Next e, s)
          | GeoReturns geo =>
              let clickData := clickDataOf w req geo in
              match attempt w OpFindByIdAndUpdate
                            (updateOne (byId (_id url))
                                       (inc_clicks_push clickData) s) with
              | Throw e => (Next e, s)
              | Ok s' => (Redirect 301 (originalUrl url), s')
              end
          end
      end
  end.

(** [UrlController.deleteUrl] *)
Definition deleteUrl (w : World) (id user : nat) (s : Store) : Response * Store :=
  match attempt w OpFindOneAndUpdate (findOne (ownedQuery id user) s) with
  | Throw e => (Next e, s)
  | Ok None => (Json 404 "URL not found" "URL_NOT_FOUND", s)
  | Ok (Some url) =>
      (Deleted (_id url), updateOne (ownedQuery id user) (set_isActive false) s)
  end.

(** The time-frame [switch] of [UrlController.getUrlAnalytics]:
    the start of the window that the handler means to report on. *)
Definition getUrlAnalytics_startDate (now : Date) (url : Url)
           (query_timeframe : option string) : Date :=
  let timeframe := match query_timeframe with Some t => t | None => "30d" end in
  if String.eqb timeframe "24h" then now - 24 * 60 * 60 * 1000
  else if String.eqb timeframe "7d" then now - 7 * 24 * 60 * 60 * 1000
  else if String.eqb timeframe "30d" then now - 30 * 24 * 60 * 60 * 1000
  else createdAt url.

End UrlController.

(** ** Analytics controllers and query validation *)

Module AnalyticsControllers.

(** The adjustment a time-frame [switch] applies to [startDate]:
      [setHours(getHours() - n)] or [setDate(getDate() - n)]. *)
Inductive Lookback :=
  | Hours (n : Z)
  | Days (n : Z).

(** [getUrlAnalytics] (per link, by short code) *)
Definition getUrlAnalytics_lookback (query_timeframe : option string) : Lookback :=
  let timeframe := match query_timeframe with Some t => t | None => "7d" end in
  if String.eqb timeframe "24h" then Hours 24
  else if String.eqb timeframe "7d" then Days 7
  else if String.eqb timeframe "30d" then Days 30
  else if String.eqb timeframe "90d" then Days 90
  else Days 7.








End AnalyticsControllers.

(** ** Vocabulary of the statements *)

(** Serve the visits one after the other, each in its own world. *)
Fixpoint resolveAll (geoip : GeoIp) (visits : list (World * RedirectReq))
         (s : Store) : list Response * Store :=
  match visits with
  | [] => ([], s)
  | (w, req) :: rest =>
      let '(r, s1) := UrlController.redirectUrl w geoip req s in
      let '(rs, s2) := resolveAll geoip rest s1 in
      (r :: rs, s2)
  end.

Definition isRedirect (r : Response) : bool :=
  match r with
  | Redirect _ _ => true
  | _ => false
  end.

(** The codes the uniqueness loop examines, in order: the one it starts
    with, then the generator's from position [i] on. *)
Definition candidate (gen : nat -> string) (i : nat) (code : string) (j : nat) : string :=
  match j with
  | O => code
  | S j' => gen (i + j')%nat
  end.

(** [code] is held by a document of the collection. *)
Definition taken (s : Store) (code : string) : Prop :=
  Db.findOne (Db.byShortCode code) s <> None.

(** The document that [Url.create] stores for [urlData]: the schema's
    setters applied, then [shortUrl] as the pre-save hook sets it. *)
Definition createdDoc (w : World) (req : ShortenReq) (code : string) (id : nat) : Url :=
  let u := Schema.cast (UrlController.urlDataOf w req code id) in
  Schema.set_shortUrl
    (JS.or_else (BASE_URL w) "http://localhost:3000" ++ "/" ++ shortCode u) u.

(** No operation of the persistence layer is rejected. *)
Definition noFaults (w : World) : Prop := forall op, fault w op = None.

(** What the schema asks of a short code: 3 to 20 characters among letters,
    digits, hyphen and underscore. *)
Definition validCode (code : string) : Prop :=
  Schema.code_match code = true /\ 3 <= JS.length code <= 20.

(** A valid destination: both URL checks of the creation path accept it
    ([validateUrl] in the controller, [isURL] in the schema).  Such a string
    is not empty and has no surrounding white space, [isURL] rejecting any
    string that contains white space. *)
Definition validDestination (isURL validateUrl : string -> bool) (url : string) : Prop :=
  validateUrl url = true /\ isURL url = true /\ url <> "" /\ JS.trim url = url.

(** The unique indexes of the collection: [_id] and [shortCode]. *)
Definition uniqueIndexes (s : Store) : Prop :=
  NoDup (map _id s) /\ NoDup (map shortCode s).

(** ** A client that keeps permanent redirects *)

(** What HTTP lets a client do with the answers of [redirectUrl], which
    carry no cache directive ([res.redirect(301, url)] sets none): a
    redirect whose status is permanent (301, 308) may be kept and used again
    for the same request without asking the server; a temporary one (302,
    307) and any other answer is asked for anew. *)
Module Client.

(** The kept redirects: requested code, status, location. *)
Definition Cache := list (string * (Z * string)).

Definition permanent (status : Z) : bool :=
  (status =? 301) || (status =? 308).

Fixpoint cached (code : string) (cache : Cache) : option (Z * string) :=
  match cache with
  | [] => None
  | (c, answer) :: rest =>
      if String.eqb c code then Some answer else cached code rest
  end.

(** One request of the client: served from its copy if it has one, and
    sent to the server if not. *)
Definition get (w : World) (geoip : GeoIp) (req : RedirectReq)
           (cache : Cache) (s : Store) : Response * Cache * Store :=
  match cached (params_shortCode req) cache with
  | Some (status, location) => (Redirect status location, cache, s)
  | None =>
      let '(r, s') := UrlController.redirectUrl w geoip req s in
      match r with
      | Redirect status location =>
          (r,
           if permanent status
           then (params_shortCode req, (status, location)) :: cache
           else cache,
           s')
      | _ => (r, cache, s')
      end
  end.

End Client.

(** ** Sample data *)

Module Sample.

Definition calm : World := mkWorld 1000 None (fun _ => None).

(** The click-recording write is rejected. *)
Definition writeDown : World :=
  mkWorld 1000 None
          (fun op => match op with
                     | OpFindByIdAndUpdate => Some (MongoError "connection lost")
                     | _ => None
                     end).

Definition link (id : nat) (code dest : string) (active : bool)
           (expiry : option Date) : Url :=
  mkUrl id dest code ("http://localhost:3000/" ++ code) None 0 0 active
        expiry None 0 0 0.

(** A link that belongs to an account. *)
Definition owned (id owner : nat) (code dest : string) : Url :=
  mkUrl id dest code ("http://localhost:3000/" ++ code) (Some owner) 0 0
        true None None 0 0 0.

Definition visit (code ip : string) : RedirectReq :=
  mkRedirectReq code (Some ip) None (Some "Mozilla/5.0") None.

(** A provider that is loaded and knows no address. *)
Definition geoLoaded : GeoIp := Some (fun _ => GeoReturns None).

(** The provider could not be imported. *)
Definition geoMissing : GeoIp := None.

Definition isURL (u : string) : bool := String.eqb u "https://example.com".

Definition codes : list string :=
  ["code0000"; "code0001"; "code0002"; "code0003"; "code0004"; "code0005";
   "code0006"; "code0007"; "code0008"; "code0009"; "code0010"].

(** Eleven links whose codes are the generator's first eleven. *)
Definition crowded : Store :=
  map (fun '(id, c) => link id c "https://example.com" true None)
      (combine (seq 1 11) codes).

Definition gen (i : nat) : string := nth i codes "free0000".

Definition stuck (_ : nat) : string := "code0000".

(** Another request takes the alias between this request's first and
    second await. *)
Definition rival : Interference :=
  fun k s => match k with
             | 1%nat => (s ++ [link 7 "my-link" "https://rival.example" true None])%list
             | _ => s
             end.

(** The same, between this request's second and third await. *)
Definition lateRival : Interference :=
  fun k s => match k with
             | 2%nat => (s ++ [link 7 "my-link" "https://rival.example" true None])%list
             | _ => s
             end.

End Sample.

(** * The rest of the controllers, models and middleware *)

(** ** More JavaScript *)

Module Lib.

(** [s.includes(sub)] *)
Fixpoint includes (s sub : string) : bool :=
  String.prefix sub s
  || match s with
     | EmptyString => false
     | String _ r => includes r sub
     end.

(** [s.replace(/[...]/g, '')] for a character class [cls]. *)
Fixpoint strip (cls : ascii -> bool) (s : string) : string :=
  match s with
  | EmptyString => EmptyString
  | String c r => if cls c then strip cls r else String c (strip cls r)
  end.

(** [Math.ceil(a / b)] on natural numbers, [b] positive. *)
Definition ceilDiv (a b : nat) : nat := ((a + b - 1) / b)%nat.

(** Insertion into a list sorted by decreasing key; equal keys keep their
    order of arrival. *)
Fixpoint insertDesc {A} (key : A -> Z) (a : A) (l : list A) : list A :=
  match l with
  | [] => [a]
  | b :: r => if key b <? key a then a :: l else b :: insertDesc key a r
  end.

(** [sort({ key: -1 })] *)
Definition sortDesc {A} (key : A -> Z) (l : list A) : list A :=
  fold_right (insertDesc key) [] l.

(** The property names that an object literal inherits from
    [Object.prototype].  Each holds a truthy value there: a function, or the
    prototype itself for [__proto__]. *)
Definition objectPrototype : list string :=
  ["constructor"; "__defineGetter__"; "__defineSetter__"; "hasOwnProperty";
   "__lookupGetter__"; "__lookupSetter__"; "isPrototypeOf";
   "propertyIsEnumerable"; "toString"; "valueOf"; "__proto__";
   "toLocaleString"].

Definition inherited (k : string) : bool :=
  existsb (String.eqb k) objectPrototype.

(** A counting object [{}], filled by [acc[k] = (acc[k] || 0) + 1]: the
    properties of it that hold a number, in order of first assignment. *)
Definition Counts := list (string * nat).

Fixpoint incr (k : string) (m : Counts) : Counts :=
  match m with
  | [] => [(k, 1%nat)]
  | (k', n) :: r =>
      if String.eqb k' k then (k', S n) :: r else (k', n) :: incr k r
  end.

(** [acc[k] = (acc[k] || 0) + 1].  Under an inherited name [acc[k]] is
    truthy from the start, so that [+ 1] appends to a text (which
    [__proto__] does not even keep): such a key never holds a number. *)
Definition bump (k : string) (m : Counts) : Counts :=
  if inherited k then m else incr k m.

Definition countBy {A} (key : A -> string) (l : list A) : Counts :=
  fold_left (fun m a => bump (key a) m) l [].

(** [acc[k]], with 0 for [undefined]. *)
Fixpoint lookup (k : string) (m : Counts) : nat :=
  match m with
  | [] => 0%nat
  | (k', n) :: r => if String.eqb k' k then n else lookup k r
  end.

Definition total (m : Counts) : nat :=
  fold_right (fun kn acc => (snd kn + acc)%nat) 0%nat m.

(** [new Set(l).size] *)
Definition distinct (l : list string) : nat :=
  List.length (nodup string_dec l).

End Lib.

(** ** Validation middleware *)

Module Validation.

(** The character class of [sanitizeInput]: the angle brackets, the double
    and the single quote, the ampersand. *)
Definition dangerous (c : ascii) : bool :=
  let n := N_of_ascii c in
  N.eqb n 60 || N.eqb n 62 || N.eqb n 34 || N.eqb n 39 || N.eqb n 38.

(** [sanitizeInput] on a string: [input.trim()], then every character of
    that class [replace]d by nothing. *)
Definition sanitizeInput (input : string) : string :=
  Lib.strip dangerous (JS.trim input).

(** A variation selector, U+FE0E or U+FE0F (EF B8 8E, EF B8 8F). *)
Definition is_selector (a b c : ascii) : bool :=
  N.eqb (N_of_ascii a) 239 && N.eqb (N_of_ascii b) 184
  && (N.eqb (N_of_ascii c) 142 || N.eqb (N_of_ascii c) 143).

(** The length that the validator package's [isLength] measures: the code
    units, less one for each surrogate pair and each variation selector.
    On the encoding: one for each byte that is no continuation byte, the
    variation selectors left out. *)
Fixpoint isLength_measure (s : string) : Z :=
  match s with
  | EmptyString => 0
  | String a r =>
      (if JS.units a =? 0 then 0
       else
         match r with
         | String b (String c _) => if is_selector a b c then 0 else 1
         | _ => 1
         end)
      + isLength_measure r
  end.

(** The chain of [validateShortCode] on [param('shortCode')]: every
    validator of the chain runs, each failure adding its message. *)
Definition validateShortCode (shortCode : string) : list string :=
  (if String.eqb shortCode "" then ["Short code is required"] else [])
  ++ (if (3 <=? isLength_measure shortCode) && (isLength_measure shortCode <=? 20)
      then []
      else ["Short code must be between 3-20 characters"])
  ++ (if Schema.code_match shortCode then []
      else ["Short code can only contain letters, numbers, underscores and hyphens"]).

End Validation.

(** ** More of the Url model *)

Module UrlModel.

Import Db Schema.

(** [updateMany(filter, update)] *)
Definition updateMany (q : Url -> bool) (f : Url -> Url) (s : Store) : Store :=
  map (fun u => if q u then f u else u) s.

(** [{ expiresAt: { $lt: new Date() } }]: no match for [null]. *)
Definition expiredQuery (now : Date) (u : Url) : bool :=
  match expiresAt u with
  | Some d => d <? now
  | None => false
  end.

(** [urlSchema.statics.getExpiredUrls] *)
Definition getExpiredUrls (now : Date) (s : Store) : list Url :=
  filter (fun u => expiredQuery now u && isActive u) s.

(** [urlSchema.statics.cleanupExpiredUrls]: the collection that
    [updateMany({ expiresAt: { $lt: new Date() } }, { isActive: false })]
    leaves (the count it reports is not part of the model). *)
Definition cleanupExpiredUrls (now : Date) (s : Store) : Store :=
  updateMany (expiredQuery now) (set_isActive false) s.

End UrlModel.

(** ** More of UrlController *)

Module UrlHandlers.

Import Db Schema UrlController.

(** Reads of the collection that a handler awaits, and their rejections. *)
Inductive ReadOp := OpFind | OpCountDocuments | OpFindOneRead.

Definition ReadFaults := ReadOp -> option Error.

Definition reading {A} (rf : ReadFaults) (op : ReadOp) (a : A) : Res A :=
  match rf op with
  | Some e => Throw e
  | None => Ok a
  end.

(** *** getUserUrls *)

Record Pagination := mkPagination {
  pg_page : positive;
  pg_limit : positive;
  pg_total : nat;
  pg_pages : nat
}.

Inductive ListResponse :=
| Listed (data : list Url) (pagination : Pagination)
| ListNext (e : Error).

(** [{ userId: req.user.id, isActive: true }] *)
Definition userActiveQuery (user : nat) (u : Url) : bool :=
  match userId u with
  | Some o => Nat.eqb o user
  | None => false
  end && isActive u.

(** [UrlController.getUserUrls], for the [page] and [limit] that
    [validatePagination] lets through (integers from 1 on; 1 and 10 when
    absent).  The documents are listed whole, [select] not being modelled. *)
Definition getUserUrls (rf : ReadFaults) (user : nat)
           (query_page query_limit : option positive) (s : Store) : ListResponse :=
  let page := match query_page with Some p => p | None => 1%positive end in
  let limit := match query_limit with Some l => l | None => 10%positive end in
  let skip := ((Pos.to_nat page - 1) * Pos.to_nat limit)%nat in
  match reading rf OpFind
                (firstn (Pos.to_nat limit)
                   (skipn skip
                      (Lib.sortDesc createdAt (filter (userActiveQuery user) s)))) with
  | Throw e => ListNext e
  | Ok urls =>
      match reading rf OpCountDocuments
                    (List.length (filter (userActiveQuery user) s)) with
      | Throw e => ListNext e
      | Ok total =>
          Listed urls (mkPagination page limit total
                                    (Lib.ceilDiv total (Pos.to_nat limit)))
      end
  end.

(** *** getUrlAnalytics *)

Record UrlAnalytics := mkUrlAnalytics {
  an_totalClicks : Z;
  an_recentClicks : nat;
  an_countries : Lib.Counts;
  an_cities : Lib.Counts;
  an_dailyClicks : Lib.Counts;
  an_hourlyClicks : Lib.Counts;
  an_referrers : Lib.Counts;
  an_devices : Lib.Counts
}.

Inductive AnalyticsResponse :=
| AnalyticsJson (url : Url) (timeframe : string) (analytics : UrlAnalytics)
| AnalyticsNotFound
| AnalyticsNext (e : Error).

(** [{ _id: id, $or: [{ userId: req.user.id }, { userId: null }] }] *)
Definition readableQuery (id user : nat) (u : Url) : bool :=
  Nat.eqb (_id u) id
  && match userId u with
     | Some o => Nat.eqb o user
     | None => true
     end.

(** [url.clickHistory] on a document read from the collection: [undefined],
    [clickHistory] being no path of the schema. *)
Definition clickHistory (url : Url) : option (list ClickData) := None.

(** [ua.includes('Mobile') ? 'Mobile' : 'Desktop'] on [click.userAgent || ''] *)
Definition deviceOf (c : ClickData) : string :=
  if Lib.includes (JS.or_else (click_userAgent c) "") "Mobile"
  then "Mobile" else "Desktop".

Section Analytics.

(** [date.toISOString().split('T')[0]] and [date.getHours()] as a key. *)
Variable isoDay : Date -> string.
Variable hourKey : Date -> string.

(** The [forEach] over the filtered clicks. *)
Definition aggregate (url : Url) (filteredClicks : list ClickData) : UrlAnalytics :=
  mkUrlAnalytics
    (clicks url)
    (List.length filteredClicks)
    (Lib.countBy click_country filteredClicks)
    (Lib.countBy click_city filteredClicks)
    (Lib.countBy (fun c => isoDay (click_timestamp c)) filteredClicks)
    (Lib.countBy (fun c => hourKey (click_timestamp c)) filteredClicks)
    (Lib.countBy (fun c => JS.or_else (click_referer c) "Direct") filteredClicks)
    (Lib.countBy deviceOf filteredClicks).

(** [UrlController.getUrlAnalytics].  [url.clickHistory.filter(...)] throws
    when [url.clickHistory] is [undefined]; the [catch] hands the error to
    [next]. *)
Definition getUrlAnalytics (rf : ReadFaults) (now : Date) (id user : nat)
           (query_timeframe : option string) (s : Store) : AnalyticsResponse :=
  let timeframe := match query_timeframe with Some t => t | None => "30d" end in
  match reading rf OpFindOneRead (findOne (readableQuery id user) s) with
  | Throw e => AnalyticsNext e
  | Ok None => AnalyticsNotFound
  | Ok (Some url) =>
      let startDate := getUrlAnalytics_startDate now url query_timeframe in
      match clickHistory url with
      | None =>
          AnalyticsNext
            (TypeError "Cannot read properties of undefined (reading 'filter')")
      | Some history =>
          let filteredClicks :=
            filter (fun click => startDate <=? click_timestamp click) history in
          AnalyticsJson url timeframe (aggregate url filteredClicks)
      end
  end.

End Analytics.

(** *** bulkShorten *)

Inductive BulkResponse :=
| BulkDone (processed total : nat) (data : list Url)
| BulkNext (message : string).

Section Bulk.

Variable isURL : string -> bool.
Variable validateUrl : string -> bool.

(** The document of one [Url.create] of the loop; [title] (the entry, cut
    after 50 characters) is not among the modelled paths. *)
Definition bulkDoc (w : World) (user : nat) (url code : string) (id : nat) : Url :=
  mkUrl id url code
        (match BASE_URL w with Some b => b | None => "undefined" end ++ "/" ++ code)
        (Some user) 0 0 true None None 0 0 (now w).

(** The [for (const url of urls)] loop: an entry that is not a non-empty
    string ([None] for a value that is no string), or that [validateUrl]
    refuses, is skipped without drawing a code; an entry whose [Url.create]
    throws is skipped after the draw.  [i] counts the codes drawn. *)
Fixpoint bulkLoop (fuel : nat) (w : World) (gen nanoid : nat -> string)
         (user : nat) (urls : list (option string)) (i : nat)
         (shortenedUrls : list Url) (s : Store) : option (list Url * Store) :=
  match urls with
  | [] => Some (shortenedUrls, s)
  | entry :: rest =>
      match entry with
      | None => bulkLoop fuel w gen nanoid user rest i shortenedUrls s
      | Some url =>
          if String.eqb url "" || negb (validateUrl url) then
            bulkLoop fuel w gen nanoid user rest i shortenedUrls s
          else
            match save isURL fuel w s nanoid
                       (cast (bulkDoc w user url (gen i) (freshId s))) with
            | None => None
            | Some (Throw _) =>
                bulkLoop fuel w gen nanoid user rest (S i) shortenedUrls s
            | Some (Ok (newUrl, s')) =>
                bulkLoop fuel w gen nanoid user rest (S i)
                         (shortenedUrls ++ [newUrl])%list s'
            end
      end
  end.

(** [UrlController.bulkShorten]; [body_urls] is [None] when [req.body.urls]
    is no array, [req_user] is [None] when the request carries no user. *)
Definition bulkShorten (fuel : nat) (w : World) (gen nanoid : nat -> string)
           (req_user : option nat) (body_urls : option (list (option string)))
           (s : Store) : option (BulkResponse * Store) :=
  match body_urls with
  | None => Some (BulkNext "Please provide an array of URLs to shorten", s)
  | Some [] => Some (BulkNext "Please provide an array of URLs to shorten", s)
  | Some urls =>
      if (50 <? List.length urls)%nat then
        Some (BulkNext "Maximum 50 URLs allowed for bulk shortening", s)
      else
        match req_user with
        | None => Some (BulkNext "Failed to process bulk URL shortening", s)
        | Some user =>
            match bulkLoop fuel w gen nanoid user urls 0 [] s with
            | None => None
            | Some (shortenedUrls, s') =>
                Some (BulkDone (List.length shortenedUrls) (List.length urls)
                               shortenedUrls, s')
            end
        end
  end.

End Bulk.

End UrlHandlers.

(** ** The analytics controller's per-link report *)

Module LinkReport.

Import Db AnalyticsControllers.

(** A click event with the paths the report groups by. *)
Record Event := mkEvent {
  event_core : Analytics;
  event_country : option string;
  event_referrer : option string;
  event_deviceType : option string
}.

Record Recent := mkRecent {
  recent_timestamp : Date;
  recent_country : option string;
  recent_referrer : option string;
  recent_deviceType : option string
}.

Record Report := mkReport {
  rp_shortCode : string;
  rp_originalUrl : string;
  rp_createdAt : Date;
  rp_totalClicks : nat;
  rp_uniqueClicks : nat;
  rp_timeframe : string;
  rp_clicksByDate : Lib.Counts;
  rp_clicksByCountry : Lib.Counts;
  rp_clicksByReferrer : Lib.Counts;
  rp_clicksByDevice : Lib.Counts;
  rp_recentClicks : list Recent
}.

Inductive ReportResponse :=
| ReportJson (data : Report)
| ReportStatus (status : Z) (message : string).

Section Report.

(** [date.toISOString().split('T')[0]]. *)
Variable isoDay : Date -> string.

(** The start of the window: what the [switch] branch's [setHours] or
    [setDate] makes of [new Date()]. *)
Variable shift : Lookback -> Date -> Date.

(** [getUrlAnalytics] of the analytics controllers.  [req_user] is the id of
    [req.user], if any; [failing] is the rejection, if any, of one of the
    two queries. *)
Definition getUrlAnalytics (failing : option Error) (now : Date)
           (req_user : option nat) (param_shortCode : string)
           (query_timeframe : option string)
           (urls : Store) (events : list Event) : ReportResponse :=
  match failing with
  | Some _ => ReportStatus 500 "Internal server error"
  | None =>
      match findOne (byShortCode param_shortCode) urls with
      | None => ReportStatus 404 "URL not found"
      | Some url =>
          let denied :=
            match req_user, userId url with
            | Some me, Some owner => negb (Nat.eqb owner me)
            | _, _ => false
            end in
          if denied then ReportStatus 403 "Access denied"
          else
            let timeframe := match query_timeframe with Some t => t | None => "7d" end in
            let endDate := now in
            let startDate := shift (getUrlAnalytics_lookback query_timeframe) now in
            let analytics :=
              Lib.sortDesc (fun a => timestamp (event_core a))
                (filter (fun a => Nat.eqb (urlId (event_core a)) (_id url)
                                  && (startDate <=? timestamp (event_core a))
                                  && (timestamp (event_core a) <=? endDate))
                        events) in
            ReportJson
              (mkReport (shortCode url) (originalUrl url) (createdAt url)
                 (List.length analytics)
                 (Lib.distinct (map (fun a => ipAddress (event_core a)) analytics))
                 timeframe
                 (Lib.countBy (fun a => isoDay (timestamp (event_core a))) analytics)
                 (Lib.countBy (fun a => JS.or_else (event_country a) "Unknown") analytics)
                 (Lib.countBy (fun a => JS.or_else (event_referrer a) "Direct") analytics)
                 (Lib.countBy (fun a => JS.or_else (event_deviceType a) "Unknown") analytics)
                 (map (fun a => mkRecent (timestamp (event_core a)) (event_country a)
                                         (event_referrer a) (event_deviceType a))
                      (firstn 10 analytics)))
      end
  end.

End Report.

End LinkReport.

(** ** More vocabulary *)

(** What a resolve can never change in a link: every path but [clicks]. *)
Definition identity (u : Url) :=
  (_id u, shortCode u, originalUrl u, shortUrl u, userId u,
   isActive u, expiresAt u, uniqueClicks u, lastAccessedAt u,
   analytics_totalClicks u, analytics_uniqueVisitors u, createdAt u).

(** What a deletion or a clean-up can never change in a link: every path
    but [isActive]. *)
Definition substance (u : Url) :=
  (_id u, shortCode u, originalUrl u, shortUrl u, userId u,
   clicks u, uniqueClicks u, expiresAt u, lastAccessedAt u,
   analytics_totalClicks u, analytics_uniqueVisitors u, createdAt u).

(** The characters of a string. *)
Definition chars := list_ascii_of_string.

(** A byte that begins no white space. *)
Definition inert (c : ascii) : bool :=
  let n := N_of_ascii c in
  negb (JS.is_space c || N.eqb n 194 || N.eqb n 225 || N.eqb n 226
        || N.eqb n 227 || N.eqb n 239).

(** [l] is in decreasing order of [key] (equal keys allowed). *)
Fixpoint sortedDesc {A} (key : A -> Z) (l : list A) : Prop :=
  match l with
  | [] => True
  | a :: r => (forall b, In b r -> key b <= key a) /\ sortedDesc key r
  end.

(** No key under which the event is counted is an inherited name. *)
Definition plainEvent (isoDay : Date -> string) (a : LinkReport.Event) : bool :=
  negb (Lib.inherited (isoDay (timestamp (LinkReport.event_core a))))
  && negb (Lib.inherited (JS.or_else (LinkReport.event_country a) "Unknown"))
  && negb (Lib.inherited (JS.or_else (LinkReport.event_referrer a) "Direct"))
  && negb (Lib.inherited (JS.or_else (LinkReport.event_deviceType a) "Unknown")).

(** A link as [bulkShorten] makes it from one of the entries [urls]. *)
Definition bulkMade (validateUrl : string -> bool) (user : nat)
           (urls : list (option string)) (u : Url) : Prop :=
  userId u = Some user /\ isActive u = true /\ clicks u = 0
  /\ exists url, In (Some url) urls /\ url <> "" /\ validateUrl url = true
                 /\ originalUrl u = JS.trim url.

(** * Properties *)

(** ** Lists and collections *)

Lemma nodup_map_inj {A B} (f : A -> B) (l : list A) (a b : A) :
  NoDup (map f l) -> In a l -> In b l -> f a = f b -> a = b.
Proof.
  induction l as [|x l IH]; simpl; intros Hnd Ha Hb Hf; [contradiction|].
  inversion Hnd as [|? ? Hnotin Hnd']; subst.
  destruct Ha as [->|Ha], Hb as [->|Hb]; auto.
  - exfalso. apply Hnotin. rewrite Hf. now apply in_map.
  - exfalso. apply Hnotin. rewrite <- Hf. now apply in_map.
Qed.

Lemma find_unique {A B} (f : A -> B) (p : A -> bool) (l : list A) (a : A) :
  NoDup (map f l) -> In a l -> p a = true ->
  (forall b, In b l -> p b = true -> f b = f a) ->
  find p l = Some a.
Proof.
  intros Hnd Ha Hp Hall.
  destruct (find p l) as [b|] eqn:E.
  - apply find_some in E as [Hb Hpb].
    f_equal. apply (nodup_map_inj f l); auto.
  - exfalso. pose proof (find_none _ _ E a Ha). congruence.
Qed.

Lemma find_app_none {A} (p : A -> bool) (l l' : list A) :
  find p l = None -> find p (l ++ l') = find p l'.
Proof.
  induction l as [|a l IH]; simpl; [reflexivity|].
  destruct (p a); [discriminate|exact IH].
Qed.

Lemma find_none_weaken {A} (p q : A -> bool) (l : list A) :
  (forall a, q a = true -> p a = true) -> find p l = None -> find q l = None.
Proof.
  intros Hpq. induction l as [|a l IH]; simpl; [reflexivity|].
  destruct (p a) eqn:Hp; [discriminate|].
  destruct (q a) eqn:Hq; [|exact IH].
  apply Hpq in Hq. congruence.
Qed.

Lemma find_none_all {A} (p : A -> bool) (l : list A) :
  (forall a, In a l -> p a = false) -> find p l = None.
Proof.
  induction l as [|a l IH]; simpl; intros H; [reflexivity|].
  rewrite (H a (or_introl eq_refl)). apply IH. intros b Hb. apply H. now right.
Qed.

(** ** Strings *)

Module JSFacts.

Import Schema.

Lemma inert_inv c :
  inert c = true ->
  JS.is_space c = false
  /\ N.eqb (N_of_ascii c) 194 = false /\ N.eqb (N_of_ascii c) 225 = false
  /\ N.eqb (N_of_ascii c) 226 = false /\ N.eqb (N_of_ascii c) 227 = false
  /\ N.eqb (N_of_ascii c) 239 = false.
Proof.
  unfold inert. intros H. apply negb_true_iff in H.
  destruct (JS.is_space c), (N.eqb (N_of_ascii c) 194), (N.eqb (N_of_ascii c) 225),
    (N.eqb (N_of_ascii c) 226), (N.eqb (N_of_ascii c) 227),
    (N.eqb (N_of_ascii c) 239); simpl in H; try discriminate; auto 10.
Qed.

Lemma inert_space c : inert c = true -> JS.is_space c = false.
Proof. intros H. apply (inert_inv c H). Qed.

Lemma inert_space2 a b : inert a = true -> JS.is_space2 a b = false.
Proof.
  intros H. destruct (inert_inv a H) as (_ & H2 & _).
  unfold JS.is_space2. now rewrite H2.
Qed.

Lemma inert_space3 a b c : inert a = true -> JS.is_space3 a b c = false.
Proof.
  intros H. destruct (inert_inv a H) as (_ & _ & H1 & H2 & H3 & H4).
  unfold JS.is_space3. now rewrite H1, H2, H3, H4.
Qed.

Lemma trimStart_inert a r : inert a = true -> JS.trimStart (String a r) = String a r.
Proof.
  intros H. simpl. rewrite (inert_space a H).
  destruct r as [|b r2]; [reflexivity|]. rewrite (inert_space2 a b H).
  destruct r2 as [|c r3]; [reflexivity|]. now rewrite (inert_space3 a b c H).
Qed.

Lemma trimEnd_inert s :
  forallb inert (list_ascii_of_string s) = true -> JS.trimEnd s = s.
Proof.
  induction s as [|a r IH]; [reflexivity|].
  intros H. simpl in H. apply andb_true_iff in H as [Ha Hr].
  change (JS.trimEnd (String a r))
    with (if JS.blank (String a r) then EmptyString else String a (JS.trimEnd r)).
  unfold JS.blank. rewrite (trimStart_inert a r Ha). simpl. now rewrite IH.
Qed.

Lemma trim_inert s :
  forallb inert (list_ascii_of_string s) = true -> JS.trim s = s.
Proof.
  intros H. unfold JS.trim.
  destruct s as [|a r]; [reflexivity|].
  pose proof H as H'. simpl in H'. apply andb_true_iff in H' as [Ha _].
  rewrite (trimStart_inert a r Ha). now apply trimEnd_inert.
Qed.

Lemma code_char_inert c : code_char c = true -> inert c = true.
Proof.
  destruct c as [b0 b1 b2 b3 b4 b5 b6 b7].
  destruct b0, b1, b2, b3, b4, b5, b6, b7; vm_compute; congruence.
Qed.

Lemma code_char_units c : code_char c = true -> JS.units c = 1.
Proof.
  destruct c as [b0 b1 b2 b3 b4 b5 b6 b7].
  destruct b0, b1, b2, b3, b4, b5, b6, b7; vm_compute; congruence.
Qed.

(** The schema's [trim] setter leaves a well-formed code as it is. *)
Lemma trim_code code : code_match code = true -> JS.trim code = code.
Proof.
  unfold code_match. intros H. apply andb_true_iff in H as [_ H].
  apply trim_inert. apply forallb_forall. intros c Hc.
  apply code_char_inert. now apply (proj1 (forallb_forall _ _) H).
Qed.

(** A well-formed code has one code unit per byte. *)
Lemma length_code code :
  forallb code_char (list_ascii_of_string code) = true ->
  JS.length code = Z.of_nat (String.length code).
Proof.
  induction code as [|c r IH]; [reflexivity|].
  intros H. simpl in H. apply andb_true_iff in H as [Hc Hr].
  change (JS.length (String c r)) with (JS.units c + JS.length r).
  rewrite (code_char_units c Hc), (IH Hr). simpl String.length. lia.
Qed.

Lemma units_nonneg c : 0 <= JS.units c.
Proof.
  unfold JS.units. destruct (_ && _); [lia|]. destruct (N.leb 240 _); lia.
Qed.

Lemma length_nonneg s : 0 <= JS.length s.
Proof.
  induction s as [|c r IH]; simpl; [lia|]. pose proof (units_nonneg c). lia.
Qed.

(** [trimStart] cuts a prefix off, [trimEnd] a suffix. *)
Lemma trimStart_suffix_n n : forall s,
  (String.length s <= n)%nat -> exists p, s = (p ++ JS.trimStart s)%string.
Proof.
  induction n as [|n IH]; intros s Hn.
  - destruct s; [now exists ""|simpl in Hn; lia].
  - destruct s as [|a r]; [now exists ""|]. simpl in Hn.
    simpl. destruct (JS.is_space a).
    { destruct (IH r ltac:(lia)) as [p Hp]. exists (String a p). simpl. now rewrite <- Hp. }
    destruct r as [|b r2]; [now exists ""|]. simpl in Hn.
    destruct (JS.is_space2 a b).
    { destruct (IH r2 ltac:(lia)) as [p Hp]. exists (String a (String b p)).
      simpl. now rewrite <- Hp. }
    destruct r2 as [|c r3]; [now exists ""|]. simpl in Hn.
    destruct (JS.is_space3 a b c); [|now exists ""].
    destruct (IH r3 ltac:(lia)) as [p Hp].
    exists (String a (String b (String c p))). simpl. now rewrite <- Hp.
Qed.

Lemma trimStart_suffix s : exists p, s = (p ++ JS.trimStart s)%string.
Proof. apply (trimStart_suffix_n (String.length s)). lia. Qed.

Lemma trimEnd_prefix s : exists q, s = (JS.trimEnd s ++ q)%string.
Proof.
  induction s as [|a r IH]; [now exists ""|].
  change (JS.trimEnd (String a r))
    with (if JS.blank (String a r) then EmptyString else String a (JS.trimEnd r)).
  destruct (JS.blank (String a r)).
  - now exists (String a r).
  - destruct IH as [q Hq]. exists q. simpl. now rewrite <- Hq.
Qed.

(** What [trim] returns is a segment of its argument. *)
Lemma trim_segment s : exists p q, s = (p ++ JS.trim s ++ q)%string.
Proof.
  unfold JS.trim. destruct (trimStart_suffix s) as [p Hp].
  destruct (trimEnd_prefix (JS.trimStart s)) as [q Hq].
  exists p, q. now rewrite <- Hq.
Qed.

End JSFacts.

(** ** Collections *)

Module DbFacts.

Import Db.

Lemma byShortCode_spec code u :
  byShortCode code u = true <-> shortCode u = JS.trim code.
Proof. unfold byShortCode. apply String.eqb_eq. Qed.

Lemma updateOne_map_inv {B} (g : Url -> B) q f s :
  (forall u, g (f u) = g u) -> map g (updateOne q f s) = map g s.
Proof.
  intros Hg. induction s as [|u r IH]; simpl; [reflexivity|].
  destruct (q u); simpl; [now rewrite Hg | now rewrite IH].
Qed.

Lemma updateOne_length q f s : List.length (updateOne q f s) = List.length s.
Proof.
  induction s as [|u r IH]; simpl; [reflexivity|].
  destruct (q u); simpl; auto.
Qed.

(** Updating by [_id] rewrites exactly the document [findById] returns. *)
Lemma findById_updateOne_same id f s u :
  (forall v, _id (f v) = _id v) ->
  findById id s = Some u ->
  findById id (updateOne (byId id) f s) = Some (f u).
Proof.
  intros Hid. unfold findById, findOne.
  induction s as [|v r IH]; simpl; [discriminate|].
  destruct (byId id v) eqn:E; simpl.
  - intros [= ->]. unfold byId in *. rewrite Hid, E. reflexivity.
  - rewrite E. exact IH.
Qed.

Lemma findById_updateOne_other id j f s :
  (forall v, _id (f v) = _id v) ->
  id <> j ->
  findById j (updateOne (byId id) f s) = findById j s.
Proof.
  intros Hid Hne. unfold findById, findOne.
  induction s as [|v r IH]; simpl; [reflexivity|].
  destruct (byId id v) eqn:E; simpl.
  - unfold byId in *. rewrite Hid.
    apply Nat.eqb_eq in E. rewrite E.
    destruct (Nat.eqb id j) eqn:E'; [apply Nat.eqb_eq in E'; contradiction|reflexivity].
  - now rewrite IH.
Qed.

Lemma uniqueIndexes_updateOne q f s :
  (forall v, _id (f v) = _id v) ->
  (forall v, shortCode (f v) = shortCode v) ->
  uniqueIndexes s -> uniqueIndexes (updateOne q f s).
Proof.
  intros H1 H2 [Ha Hb]. split; rewrite updateOne_map_inv; auto.
Qed.

(** Under the unique index on [_id], a document of the collection is the
    one [findById] returns for its [_id]. *)
Lemma findById_in s u :
  NoDup (map _id s) -> In u s -> findById (_id u) s = Some u.
Proof.
  intros Hnd Hin. unfold findById, findOne.
  apply (find_unique _id); auto.
  - unfold byId. apply Nat.eqb_refl.
  - intros b _ Hb. unfold byId in Hb. now apply Nat.eqb_eq in Hb.
Qed.

(** The documents after an update: the rewritten first match, or documents
    that were there before under another [_id]. *)
Lemma updateOne_in q f s u v :
  NoDup (map _id s) ->
  findOne q s = Some u ->
  In v (updateOne q f s) ->
  v = f u \/ (In v s /\ _id v <> _id u).
Proof.
  unfold findOne. induction s as [|a r IH]; simpl; [discriminate|].
  intros Hnd Hfind Hin. inversion Hnd as [|? ? Hnotin Hnd']; subst.
  destruct (q a) eqn:E.
  - injection Hfind as <-. destruct Hin as [<-|Hin]; [now left|right].
    split; [now right|]. intros Heq. apply Hnotin. rewrite <- Heq. now apply in_map.
  - destruct Hin as [<-|Hin].
    + right. split; [now left|]. intros Heq. apply Hnotin.
      apply find_some in Hfind as [Hu _]. rewrite Heq. now apply in_map.
    + destruct (IH Hnd' Hfind Hin) as [->|[Hv Hne]]; [now left|right].
      split; [now right|exact Hne].
Qed.

End DbFacts.

(** ** Resolving a short code *)

Module RedirectFacts.

Import Db Schema UrlController.

(** What a redirect response tells about the run that sent it. *)
Lemma redirectUrl_redirect_inv w geoip req s st loc s' :
  redirectUrl w geoip req s = (Redirect st loc, s') ->
  exists url lookup geo,
    findOne (redirectQuery (params_shortCode req) (now w)) s = Some url
    /\ geoip = Some lookup
    /\ lookup (clientIp req) = GeoReturns geo
    /\ fault w OpFindByIdAndUpdate = None
    /\ st = 301
    /\ loc = originalUrl url
    /\ s' = updateOne (byId (_id url)) (inc_clicks_push (clickDataOf w req geo)) s.
Proof.
  unfold redirectUrl, attempt.
  destruct (fault w OpFindOne); [discriminate|].
  destruct (findOne _ s) as [url|] eqn:Hfind; [|discriminate].
  destruct geoip as [lookup|]; [|discriminate].
  destruct (lookup (clientIp req)) as [e|geo] eqn:Hgeo; [discriminate|].
  destruct (fault w OpFindByIdAndUpdate) eqn:Hw; [discriminate|].
  intros [= <- <- <-].
  exists url, lookup, geo. repeat split; auto.
Qed.

(** With the persistence layer and the provider answering, an approved
    resolve redirects. *)
Lemma redirectUrl_approved w lookup geo req s url :
  fault w OpFindOne = None ->
  fault w OpFindByIdAndUpdate = None ->
  findOne (redirectQuery (params_shortCode req) (now w)) s = Some url ->
  lookup (clientIp req) = GeoReturns geo ->
  redirectUrl w (Some lookup) req s
  = (Redirect 301 (originalUrl url),
     updateOne (byId (_id url)) (inc_clicks_push (clickDataOf w req geo)) s).
Proof.
  intros H1 H2 Hfind Hgeo. unfold redirectUrl, attempt.
  now rewrite H1, Hfind, Hgeo, H2.
Qed.

(** No document passes the query: the answer is the 404, whatever the reason
    (no such code, inactive, expired). *)
Lemma redirectUrl_no_match w geoip req s :
  fault w OpFindOne = None ->
  findOne (redirectQuery (params_shortCode req) (now w)) s = None ->
  redirectUrl w geoip req s
  = (Json 404 "Short URL not found or expired" "URL_NOT_FOUND", s).
Proof.
  intros H1 Hfind. unfold redirectUrl, attempt. now rewrite H1, Hfind.
Qed.

(** When every stored link with the requested code is inactive or at or past
    its expiry, the answer is that same 404. *)
Lemma redirectUrl_inaccessible w geoip req s :
  fault w OpFindOne = None ->
  (forall u, In u s -> shortCode u = JS.trim (params_shortCode req) ->
             isActive u = false \/ exists d, expiresAt u = Some d /\ d <= now w) ->
  redirectUrl w geoip req s
  = (Json 404 "Short URL not found or expired" "URL_NOT_FOUND", s).
Proof.
  intros Hf Hall. apply redirectUrl_no_match; [exact Hf|].
  apply find_none_all. intros u Hin. unfold redirectQuery.
  destruct (byShortCode (params_shortCode req) u) eqn:E; [|reflexivity].
  apply DbFacts.byShortCode_spec in E.
  destruct (Hall u Hin E) as [Ha|(d & Hd & Hle)].
  - now rewrite Ha.
  - rewrite Hd, andb_true_l. apply andb_false_intro2. now apply Z.ltb_ge.
Qed.

(** An inactive or expired document never passes the query. *)
Lemma redirectQuery_accessible code now u :
  redirectQuery code now u = true ->
  shortCode u = JS.trim code /\ isActive u = true
  /\ (expiresAt u = None \/ exists d, expiresAt u = Some d /\ now < d).
Proof.
  unfold redirectQuery. intros H.
  apply andb_true_iff in H as [H Hexp]. apply andb_true_iff in H as [Hc Ha].
  apply DbFacts.byShortCode_spec in Hc. repeat split; auto.
  destruct (expiresAt u) as [d|]; [right|now left].
  exists d. split; [reflexivity|]. now apply Z.ltb_lt.
Qed.

(** The provider is not loaded: an approved resolve ends in a [TypeError],
    and nothing is recorded. *)
Lemma redirectUrl_geoip_null w req s url :
  fault w OpFindOne = None ->
  findOne (redirectQuery (params_shortCode req) (now w)) s = Some url ->
  redirectUrl w None req s
  = (Next (TypeError "Cannot read properties of null (reading 'lookup')"), s).
Proof.
  intros H1 Hfind. unfold redirectUrl, attempt. now rewrite H1, Hfind.
Qed.

(** The provider throws: same outcome, with the provider's error. *)
Lemma redirectUrl_geoip_throws w lookup e req s url :
  fault w OpFindOne = None ->
  findOne (redirectQuery (params_shortCode req) (now w)) s = Some url ->
  lookup (clientIp req) = GeoThrows e ->
  redirectUrl w (Some lookup) req s = (Next e, s).
Proof.
  intros H1 Hfind Hgeo. unfold redirectUrl, attempt. now rewrite H1, Hfind, Hgeo.
Qed.

(** The provider answers [null]: the click carries country "Unknown". *)
Lemma clickDataOf_unknown w req :
  click_country (clickDataOf w req None) = "Unknown"
  /\ click_city (clickDataOf w req None) = "Unknown".
Proof. split; reflexivity. Qed.

(** C1, evaluated on the code: resolving a stored link that is inactive, or
    active and past its expiry, gives the very answer given for a code that
    was never stored, 404 [URL_NOT_FOUND]; no INACTIVE or EXPIRED answer
    exists, although the schema's [status] tells the three cases apart in
    the order inactive, expired. *)
Theorem redirectUrl_inactive_expired_as_not_found :
  let inactive := Sample.link 1 "abc123" "https://example.com" false None in
  let expired := Sample.link 2 "old456" "https://example.com" true (Some 999) in
  let s := [inactive; expired] in
  let answer := (Json 404 "Short URL not found or expired" "URL_NOT_FOUND", s) in
  redirectUrl Sample.calm Sample.geoLoaded (Sample.visit "abc123" "1.1.1.1") s = answer
  /\ redirectUrl Sample.calm Sample.geoLoaded (Sample.visit "old456" "1.1.1.1") s = answer
  /\ redirectUrl Sample.calm Sample.geoLoaded (Sample.visit "nosuch" "1.1.1.1") s = answer
  /\ findOne (byShortCode "abc123") s = Some inactive
  /\ findOne (byShortCode "old456") s = Some expired
  /\ status (now Sample.calm) inactive = "inactive"
  /\ status (now Sample.calm) expired = "expired".
Proof. repeat split; reflexivity. Qed.




(** C3, evaluated on the code: with the provider not loaded ([geoip] still
    [null]), an approved resolve throws on [geoip.lookup]; the error goes to
    [next], no click is recorded and no redirect is sent.  A provider that
    throws has the same effect. *)
Theorem redirectUrl_fails_without_geoip :
  let l := Sample.link 1 "abc123" "https://example.com" true None in
  let req := Sample.visit "abc123" "1.1.1.1" in
  findOne (redirectQuery "abc123" (now Sample.calm)) [l] = Some l
  /\ redirectUrl Sample.calm Sample.geoMissing req [l]
     = (Next (TypeError "Cannot read properties of null (reading 'lookup')"), [l])
  /\ redirectUrl Sample.calm (Some (fun _ => GeoThrows (GeoError "no database"))) req [l]
     = (Next (GeoError "no database"), [l]).
Proof. repeat split; reflexivity. Qed.

(** Once its owner has deleted (deactivated) a link, resolving its code is
    answered 404. *)
Lemma deleteUrl_then_404 w id user s u :
  uniqueIndexes s ->
  fault w OpFindOneAndUpdate = None ->
  findOne (ownedQuery id user) s = Some u ->
  deleteUrl w id user s
  = (Deleted (_id u), updateOne (ownedQuery id user) (set_isActive false) s)
  /\ forall w2 geoip req,
       JS.trim (params_shortCode req) = shortCode u ->
       fault w2 OpFindOne = None ->
       redirectUrl w2 geoip req (updateOne (ownedQuery id user) (set_isActive false) s)
       = (Json 404 "Short URL not found or expired" "URL_NOT_FOUND",
          updateOne (ownedQuery id user) (set_isActive false) s).
Proof.
  intros [Hids Hcodes] Hf Hfind. split.
  - unfold deleteUrl, attempt. now rewrite Hf, Hfind.
  - intros w2 geoip req Hcode Hf2.
    apply redirectUrl_no_match; [exact Hf2|].
    apply find_none_all. intros v Hv.
    destruct (DbFacts.updateOne_in _ _ _ _ _ Hids Hfind Hv) as [->|[Hin Hne]].
    + unfold redirectQuery. simpl. now rewrite andb_false_r.
    + unfold redirectQuery, byShortCode. rewrite Hcode.
      destruct (String.eqb (shortCode v) (shortCode u)) eqn:E; [|reflexivity].
      exfalso. apply Hne. f_equal.
      apply String.eqb_eq in E. apply find_some in Hfind as [Hu _].
      now apply (nodup_map_inj shortCode s).
Qed.

(** C9: every successful resolve answers with status 301 (moved
    permanently) and the stored destination as its location: a resolve that
    the resolver approves, with the provider and the write answering, is
    such a resolve, and no resolve redirects with another status.  A client
    that keeps permanent redirects is served from its own copy from then on
    and never asks again, whatever has become of the link; the server, asked
    after the owner has deactivated the link, would answer 404. *)
Theorem redirect_status_301 w lookup geo req s url :
  fault w OpFindOne = None ->
  fault w OpFindByIdAndUpdate = None ->
  findOne (redirectQuery (params_shortCode req) (now w)) s = Some url ->
  lookup (clientIp req) = GeoReturns geo ->
  fst (redirectUrl w (Some lookup) req s) = Redirect 301 (originalUrl url)
  /\ (forall w' geoip' req' s' st loc s'',
         redirectUrl w' geoip' req' s' = (Redirect st loc, s'') -> st = 301)
  /\ (forall cache,
         Client.cached (params_shortCode req) cache = None ->
         exists cache',
           Client.get w (Some lookup) req cache s
           = (Redirect 301 (originalUrl url), cache',
              snd (redirectUrl w (Some lookup) req s))
           /\ forall w2 geoip2 s2,
                Client.get w2 geoip2 req cache' s2
                = (Redirect 301 (originalUrl url), cache', s2))
  /\ (forall owner w1 w2 geoip2,
         uniqueIndexes s ->
         userId url = Some owner ->
         fault w1 OpFindOneAndUpdate = None ->
         fault w2 OpFindOne = None ->
         exists s1,
           deleteUrl w1 (_id url) owner (snd (redirectUrl w (Some lookup) req s))
           = (Deleted (_id url), s1)
           /\ redirectUrl w2 geoip2 req s1
              = (Json 404 "Short URL not found or expired" "URL_NOT_FOUND", s1)).
Proof.
  intros Hf1 Hf2 Hfind Hgeo.
  rewrite (redirectUrl_approved w lookup geo req s url Hf1 Hf2 Hfind Hgeo).
  cbn [fst snd].
  split; [reflexivity|]. split.
  { intros w' geoip' req' s' st loc s'' H.
    apply redirectUrl_redirect_inv in H.
    now destruct H as (? & ? & ? & _ & _ & _ & _ & H & _). }
  split.
  { intros cache Hc. unfold Client.get at 1. rewrite Hc.
    rewrite (redirectUrl_approved w lookup geo req s url Hf1 Hf2 Hfind Hgeo).
    change (Client.permanent 301) with true. cbv iota.
    eexists. split; [reflexivity|].
    intros w2 geoip2 s2. unfold Client.get. cbn [Client.cached].
    now rewrite String.eqb_refl. }
  intros owner w1 w2 geoip2 Hu Howner Hd Hr.
  set (f := inc_clicks_push (clickDataOf w req geo)).
  set (s' := updateOne (byId (_id url)) f s).
  assert (Hu' : uniqueIndexes s') by (apply DbFacts.uniqueIndexes_updateOne; auto).
  pose proof Hfind as Hq. apply find_some in Hq as [Hin Hq].
  apply redirectQuery_accessible in Hq as (Hcode & _ & _).
  assert (Hbyid : findById (_id url) s' = Some (f url)).
  { apply DbFacts.findById_updateOne_same; [reflexivity|].
    apply DbFacts.findById_in; [apply Hu|exact Hin]. }
  assert (Hown : findOne (ownedQuery (_id url) owner) s' = Some (f url)).
  { apply find_some in Hbyid as [Hin' _].
    apply (find_unique _id); [apply Hu'|exact Hin'| |].
    - unfold ownedQuery. change (_id (f url)) with (_id url).
      change (userId (f url)) with (userId url).
      now rewrite Howner, !Nat.eqb_refl.
    - intros b _ Hb. unfold ownedQuery in Hb. apply andb_true_iff in Hb as [Hb _].
      now apply Nat.eqb_eq in Hb. }
  destruct (deleteUrl_then_404 w1 (_id url) owner s' (f url) Hu' Hd Hown) as [Hdel Hres].
  eexists. split; [exact Hdel|].
  apply Hres; [|exact Hr]. symmetry. exact Hcode.
Qed.

Lemma redirect_status_301_witness :
  let l := Sample.owned 1 42 "abc123" "https://example.com" in
  let req := Sample.visit "abc123" "1.1.1.1" in
  fst (redirectUrl Sample.calm Sample.geoLoaded req [l])
  = Redirect 301 "https://example.com"
  /\ exists cache',
       Client.get Sample.calm Sample.geoLoaded req [] [l]
       = (Redirect 301 "https://example.com", cache',
          snd (redirectUrl Sample.calm Sample.geoLoaded req [l]))
       /\ forall w2 geoip2 s2,
            Client.get w2 geoip2 req cache' s2
            = (Redirect 301 "https://example.com", cache', s2).
Proof.
  intros l req.
  pose proof (redirect_status_301 Sample.calm (fun _ => GeoReturns None) None req
                [l] l eq_refl eq_refl eq_refl eq_refl) as H.
  split; [exact (proj1 H)|].
  exact (proj1 (proj2 (proj2 H)) [] eq_refl).
Defined.

End RedirectFacts.

(** ** Schema validation and save *)

Module SchemaFacts.

Import Db Schema.

(** A path has no error exactly when all its validators pass, and never
    more than one. *)
Lemma check_nil path validators :
  check path validators = [] <-> forallb fst validators = true.
Proof.
  induction validators as [|[ok msg] rest IH]; simpl; [tauto|].
  destruct ok; simpl; [exact IH|]. split; discriminate.
Qed.

Lemma check_length path validators :
  (List.length (check path validators) <= 1)%nat.
Proof.
  induction validators as [|[ok msg] rest IH]; simpl; [lia|].
  destruct ok; simpl; [exact IH|lia].
Qed.

Lemma expiresAt_validator_true now date :
  expiresAt_validator now date = true <->
  date = None \/ exists d, date = Some d /\ now < d.
Proof.
  unfold expiresAt_validator. destruct date as [d|]; split.
  - intros H. right. exists d. split; [reflexivity|now apply Z.ltb_lt].
  - intros [H|(d' & [= <-] & H)]; [discriminate|now apply Z.ltb_lt].
  - now left.
  - reflexivity.
Qed.

Lemma expiresAt_validator_false now d :
  d <= now -> expiresAt_validator now (Some d) = false.
Proof. intros H. simpl. apply Z.ltb_ge. exact H. Qed.

(** What a document that passes validation satisfies. *)
Lemma validationErrors_nil isURL now u :
  validationErrors isURL now u = [] ->
  originalUrl u <> ""
  /\ isURL (originalUrl u) = true
  /\ shortCode u <> ""
  /\ 3 <= JS.length (shortCode u) <= 20
  /\ code_match (shortCode u) = true
  /\ 0 <= clicks u
  /\ 0 <= uniqueClicks u
  /\ expiresAt_validator now (expiresAt u) = true.
Proof.
  unfold validationErrors. intros H.
  repeat (apply app_eq_nil in H as [?H H]).
  repeat match goal with
         | Hc : check _ _ = [] |- _ =>
             apply check_nil in Hc; cbn [forallb fst] in Hc
         end.
  repeat match goal with
         | Hc : _ && _ = true |- _ => apply andb_true_iff in Hc as [? Hc]
         end.
  repeat match goal with
         | Hc : negb _ = true |- _ => apply negb_true_iff, String.eqb_neq in Hc
         end.
  repeat split; auto; now apply Z.leb_le.
Qed.

(** A failing [expiresAt] validator shows up in the validation errors. *)
Lemma validationErrors_expiresAt isURL now u :
  expiresAt_validator now (expiresAt u) = false ->
  In ("expiresAt", "Expiration date must be in the future")
     (validationErrors isURL now u).
Proof.
  intros H. unfold validationErrors. rewrite H.
  repeat (apply in_or_app; right). now left.
Qed.

Lemma validate_rejects isURL now u :
  expiresAt_validator now (expiresAt u) = false ->
  validate isURL now u = Throw (ValidationError (validationErrors isURL now u)).
Proof.
  intros H. unfold validate.
  pose proof (validationErrors_expiresAt isURL now u H) as Hin.
  destruct (validationErrors isURL now u); [contradiction|reflexivity].
Qed.

Lemma validate_ok_inv isURL now u v :
  validate isURL now u = Ok v -> v = u /\ validationErrors isURL now u = [].
Proof.
  unfold validate. destruct (validationErrors isURL now u); [|discriminate].
  intros [= <-]. now split.
Qed.

(** A save that goes through went through each of its stages. *)
Lemma save_ok_inv isURL fuel w s nanoid u u' s' :
  save isURL fuel w s nanoid u = Some (Ok (u', s')) ->
  validationErrors isURL (now w) u = []
  /\ preSave fuel w s nanoid u = Some (Ok u')
  /\ fault w OpSave = None
  /\ duplicateCode s u' = false
  /\ s' = write s u'.
Proof.
  unfold save. destruct (validate isURL (now w) u) as [v|e] eqn:Hv; [|discriminate].
  apply validate_ok_inv in Hv as [-> Hv].
  destruct (preSave fuel w s nanoid u) as [[v|e]|]; try discriminate.
  unfold attempt. destruct (fault w OpSave); simpl; [discriminate|].
  destruct (duplicateCode s v) eqn:Hd; [discriminate|].
  intros [= <- <-]. repeat split; auto.
Qed.

(** With a short code present the pre-save hook only sets [shortUrl]. *)
Lemma preSave_with_code fuel w s nanoid u :
  shortCode u <> "" ->
  preSave fuel w s nanoid u
  = Some (Ok (set_shortUrl (JS.or_else (BASE_URL w) "http://localhost:3000"
                            ++ "/" ++ shortCode u) u)).
Proof.
  intros H. unfold preSave. apply String.eqb_neq in H. now rewrite H.
Qed.

Lemma save_rejects_expiry isURL fuel w s nanoid u :
  expiresAt_validator (now w) (expiresAt u) = false ->
  save isURL fuel w s nanoid u
  = Some (Throw (ValidationError (validationErrors isURL (now w) u))).
Proof.
  intros H. unfold save. now rewrite validate_rejects.
Qed.

(** [isUniqueVisitor] answers [true] exactly when no event of the same link
    and address lies within the last 24 hours. *)
Lemma isUniqueVisitor_spec now events this :
  isUniqueVisitor now events this = true <->
  forall e, In e events -> urlId e = urlId this ->
            ipAddress e = ipAddress this -> timestamp e < now - 86400000.
Proof.
  unfold isUniqueVisitor.
  destruct (find _ events) as [e|] eqn:E; split.
  - discriminate.
  - intros H. exfalso. apply find_some in E as [Hin Hq].
    apply andb_true_iff in Hq as [Hq Ht]. apply andb_true_iff in Hq as [Hu Hi].
    apply Nat.eqb_eq in Hu. apply String.eqb_eq in Hi. apply Z.leb_le in Ht.
    specialize (H e Hin Hu Hi). lia.
  - intros _ e Hin Hu Hi. pose proof (find_none _ _ E e Hin) as Hq.
    simpl in Hq. apply Nat.eqb_eq in Hu. apply String.eqb_eq in Hi.
    rewrite Hu, Hi in Hq. simpl in Hq. apply Z.leb_gt in Hq. lia.
  - reflexivity.
Qed.

End SchemaFacts.

(** ** The uniqueness loops *)

Module LoopFacts.

Import Db Schema UrlController.

Lemma candidate_shift gen i code j :
  candidate gen (S i) (gen i) j = candidate gen i code (S j).
Proof.
  destruct j as [|j]; simpl.
  - now rewrite Nat.add_0_r.
  - now rewrite Nat.add_succ_r.
Qed.

Section Sequential.

Variable w : World.
Variable gen : nat -> string.
Variable s : Store.
Hypothesis no_fault : fault w OpFindOne = None.

(** As long as the candidates are taken, the loop goes on. *)
Lemma ensureUnique_still_running n :
  forall fuel i k code,
    (forall j, (j < n)%nat -> taken s (candidate gen i code j)) ->
    (fuel <= n)%nat ->
    ensureUnique fuel w quiet gen i k s code = None.
Proof.
  induction n as [|n IH]; intros fuel i k code Htaken Hle.
  - now replace fuel with 0%nat by lia.
  - destruct fuel as [|fuel]; [reflexivity|].
    simpl. change (quiet k s) with s. unfold attempt. rewrite no_fault.
    pose proof (Htaken 0%nat ltac:(lia)) as H0. simpl in H0. unfold taken in H0.
    destruct (findOne (byShortCode code) s); [|contradiction].
    apply IH; [|lia].
    intros j Hj. rewrite (candidate_shift gen i code). apply Htaken. lia.
Qed.

(** The loop stops at the first free candidate, after one existence check
    per candidate examined. *)
Lemma ensureUnique_stops_at_first_free n :
  forall fuel i k code,
    (forall j, (j < n)%nat -> taken s (candidate gen i code j)) ->
    findOne (byShortCode (candidate gen i code n)) s = None ->
    (n < fuel)%nat ->
    ensureUnique fuel w quiet gen i k s code
    = Some (mkLoopEnd (Ok (candidate gen i code n)) (i + n) (k + n + 1) s).
Proof.
  induction n as [|n IH]; intros fuel i k code Htaken Hfree Hlt;
    (destruct fuel as [|fuel]; [lia|]); simpl; change (quiet k s) with s; unfold attempt; rewrite no_fault.
  - simpl in Hfree. rewrite Hfree. do 2 f_equal; lia.
  - pose proof (Htaken 0%nat ltac:(lia)) as H0. simpl in H0. unfold taken in H0.
    destruct (findOne (byShortCode code) s); [|contradiction].
    rewrite (IH fuel (S i) (S k) (gen i)).
    + rewrite (candidate_shift gen i code). do 2 f_equal; lia.
    + intros j Hj. rewrite (candidate_shift gen i code). apply Htaken. lia.
    + now rewrite (candidate_shift gen i code).
    + lia.
Qed.

(** The code the loop settles on is free in the collection, which the loop
    leaves as it is. *)
Lemma ensureUnique_ok_inv fuel :
  forall i k code c i' k' s',
    ensureUnique fuel w quiet gen i k s code = Some (mkLoopEnd (Ok c) i' k' s') ->
    s' = s /\ findOne (byShortCode c) s = None.
Proof.
  induction fuel as [|fuel IH]; intros i k code c i' k' s'; simpl; [discriminate|].
  change (quiet k s) with s. unfold attempt. rewrite no_fault.
  destruct (findOne (byShortCode code) s) eqn:E.
  - apply IH.
  - intros [= <- <- <- <-]. now split.
Qed.

(** Without faults the loop never ends in an error. *)
Lemma ensureUnique_no_throw fuel :
  forall i k code e i' k' s',
    ensureUnique fuel w quiet gen i k s code <> Some (mkLoopEnd (Throw e) i' k' s').
Proof.
  induction fuel as [|fuel IH]; intros i k code e i' k' s'; simpl; [discriminate|].
  change (quiet k s) with s. unfold attempt. rewrite no_fault.
  destruct (findOne (byShortCode code) s) eqn:E.
  - apply IH.
  - discriminate.
Qed.

(** The pre-save hook's loop behaves alike on the identifiers it draws. *)
Lemma nanoidLoop_stops_at_first_free (nanoid : nat -> string) n :
  forall fuel i,
    (forall j, (j < n)%nat -> taken s (nanoid (i + j)%nat)) ->
    findOne (byShortCode (nanoid (i + n)%nat)) s = None ->
    nanoidLoop fuel w s nanoid i
    = if (n <? fuel)%nat then Some (Ok (nanoid (i + n)%nat, S (i + n))) else None.
Proof.
  induction n as [|n IH]; intros fuel i Htaken Hfree;
    (destruct fuel as [|fuel]; [reflexivity|]); simpl nanoidLoop;
    unfold attempt; rewrite no_fault.
  - rewrite Nat.add_0_r in *. now rewrite Hfree.
  - pose proof (Htaken 0%nat ltac:(lia)) as H0. rewrite Nat.add_0_r in H0.
    unfold taken in H0.
    destruct (findOne (byShortCode (nanoid i)) s); [|contradiction].
    rewrite (IH fuel (S i)).
    + replace (S i + n)%nat with (i + S n)%nat by lia.
      now replace (S n <? S fuel)%nat with (n <? fuel)%nat by reflexivity.
    + intros j Hj. replace (S i + j)%nat with (i + S j)%nat by lia.
      apply Htaken. lia.
    + now replace (S i + n)%nat with (i + S n)%nat by lia.
Qed.

End Sequential.

(** C4, refuted as stated: with the generator's first eleven codes taken the
    loop makes twelve existence checks, more than ten, and then allocates the
    twelfth code, no exhaustion error being raised; and with a generator that
    keeps yielding a taken code it is still running after a thousand checks. *)
Lemma allocation_goes_past_ten_attempts :
  ensureUnique 12 Sample.calm quiet Sample.gen 1 0 Sample.crowded (Sample.gen 0)
  = Some (mkLoopEnd (Ok "free0000") 12 12 Sample.crowded)
  /\ (10 < 12)%nat
  /\ ensureUnique 11 Sample.calm quiet Sample.gen 1 0 Sample.crowded (Sample.gen 0) = None
  /\ ensureUnique 1000 Sample.calm quiet Sample.stuck 1 0 Sample.crowded (Sample.stuck 0)
     = None.
Proof. repeat split; try reflexivity. lia. Qed.

(** C4, amended: the generate-and-check loop has no bound on its attempts
    and no exhaustion error.  When the first free candidate is the
    [n+1]-th, for any [n], the loop makes exactly [n+1] existence checks and
    allocates that candidate; it ends only if the generator eventually
    yields a free code: when every candidate is taken it runs forever. *)
Theorem ensureUnique_runs_until_free w gen i k s code :
  fault w OpFindOne = None ->
  (forall n,
      (forall j, (j < n)%nat -> findOne (byShortCode (candidate gen i code j)) s <> None) ->
      findOne (byShortCode (candidate gen i code n)) s = None ->
      forall fuel,
        ensureUnique fuel w quiet gen i k s code
        = if (n <? fuel)%nat
          then Some (mkLoopEnd (Ok (candidate gen i code n)) (i + n) (k + n + 1) s)
          else None)
  /\ ((forall j, findOne (byShortCode (candidate gen i code j)) s <> None) ->
      forall fuel, ensureUnique fuel w quiet gen i k s code = None).
Proof.
  intros Hf. split.
  - intros n Htaken Hfree fuel.
    destruct (n <? fuel)%nat eqn:E.
    + apply Nat.ltb_lt in E. now apply ensureUnique_stops_at_first_free.
    + apply Nat.ltb_ge in E. now apply (ensureUnique_still_running w gen s Hf n).
  - intros Htaken fuel.
    apply (ensureUnique_still_running w gen s Hf fuel); [|lia].
    intros j _. exact (Htaken j).
Qed.

Lemma ensureUnique_runs_until_free_witness :
  ensureUnique 12 Sample.calm quiet Sample.gen 1 0 Sample.crowded "code0000"
  = Some (mkLoopEnd (Ok "free0000") 12 12 Sample.crowded)
  /\ ensureUnique 50 Sample.calm quiet Sample.stuck 1 0 Sample.crowded "code0000" = None.
Proof.
  split.
  - refine (proj1 (ensureUnique_runs_until_free Sample.calm Sample.gen 1 0
                     Sample.crowded "code0000" eq_refl) 11%nat _ eq_refl 12%nat).
    intros j Hj.
    do 11 (destruct j as [|j]; [discriminate|]). lia.
  - refine (proj2 (ensureUnique_runs_until_free Sample.calm Sample.stuck 1 0
                     Sample.crowded "code0000" eq_refl) _ 50%nat).
    intros j. destruct j; discriminate.
Defined.

End LoopFacts.

(** ** Creating a short link *)

Module ShortenFacts.

Import Db Schema UrlController JSFacts SchemaFacts LoopFacts RedirectFacts.

Lemma truthy_some x : JS.truthy x = true -> x = Some (JS.or_else x "").
Proof.
  destruct x as [c|]; simpl; [|discriminate].
  destruct (String.eqb c ""); [discriminate|reflexivity].
Qed.

Lemma freshId_above s u : In u s -> (_id u < freshId s)%nat.
Proof.
  unfold freshId. induction s as [|v s IH]; simpl; [contradiction|].
  intros [->|H]; [lia|]. specialize (IH H). lia.
Qed.

Lemma freshId_new s : existsb (byId (freshId s)) s = false.
Proof.
  destruct (existsb (byId (freshId s)) s) eqn:E; [|reflexivity].
  apply existsb_exists in E as (u & Hin & Hid).
  unfold byId in Hid. apply Nat.eqb_eq in Hid.
  pose proof (freshId_above s u Hin). lia.
Qed.

Lemma write_fresh s u : _id u = freshId s -> write s u = (s ++ [u])%list.
Proof. intros H. unfold write. now rewrite H, freshId_new. Qed.

(** A fresh document that passes the unique index shares its code with no
    document of the collection. *)
Lemma duplicateCode_fresh s u v :
  _id u = freshId s -> duplicateCode s u = false -> In v s ->
  String.eqb (shortCode v) (shortCode u) = false.
Proof.
  intros Hid Hdup Hin. unfold duplicateCode in Hdup.
  destruct (String.eqb (shortCode v) (shortCode u)) eqn:E; [|reflexivity].
  assert (Hex : existsb (fun v0 => negb (Nat.eqb (_id v0) (_id u))
                                  && String.eqb (shortCode v0) (shortCode u)) s = true).
  { apply existsb_exists. exists v. split; [exact Hin|].
    rewrite E, andb_true_r. apply negb_true_iff, Nat.eqb_neq.
    pose proof (freshId_above s v Hin). lia. }
  congruence.
Qed.

Lemma createdDoc_fields w req code id :
  _id (createdDoc w req code id) = id
  /\ originalUrl (createdDoc w req code id) = JS.trim (body_originalUrl req)
  /\ shortCode (createdDoc w req code id) = JS.trim code
  /\ isActive (createdDoc w req code id) = true
  /\ expiresAt (createdDoc w req code id) = body_expiresAt req
  /\ clicks (createdDoc w req code id) = 0
  /\ uniqueClicks (createdDoc w req code id) = 0.
Proof.
  repeat split; try reflexivity.
  simpl. now destruct (body_expiresAt req).
Qed.

Lemma createdDoc_expiresAt w req code id :
  expiresAt (createdDoc w req code id) = body_expiresAt req.
Proof. simpl. now destruct (body_expiresAt req). Qed.

Lemma cast_expiresAt w req code id :
  expiresAt (cast (urlDataOf w req code id)) = body_expiresAt req.
Proof. simpl. now destruct (body_expiresAt req). Qed.


(** *** White space and codes *)

Lemma append_nonempty a b : a <> "" -> (a ++ b)%string <> "".
Proof. destruct a; [congruence|discriminate]. Qed.

Lemma or_else_nonempty x d : d <> "" -> JS.or_else x d <> "".
Proof.
  intros Hd. destruct x as [c|]; simpl; [|exact Hd].
  destruct (String.eqb c "") eqn:E; [exact Hd|now apply String.eqb_neq].
Qed.

(** The save inside [Url.create], when it goes through. *)
Lemma save_create_inv isURL fuel w s nanoid req code url s' :
  save isURL fuel w s nanoid (cast (urlDataOf w req code (freshId s)))
  = Some (Ok (url, s')) ->
  validationErrors isURL (now w) (cast (urlDataOf w req code (freshId s))) = []
  /\ url = createdDoc w req code (freshId s)
  /\ duplicateCode s url = false
  /\ s' = (s ++ [url])%list.
Proof.
  intros H. apply save_ok_inv in H as (Hv & Hpre & _ & Hdup & ->).
  pose proof (validationErrors_nil _ _ _ Hv) as (_ & _ & Hcode & _).
  rewrite (preSave_with_code fuel w s nanoid _ Hcode) in Hpre.
  injection Hpre as <-.
  repeat split; auto. now apply write_fresh.
Qed.

(** Whatever other requests do, a 201 answer comes out of a save that went
    through. *)
Lemma shortenUrl_created_saved isURL validateUrl fuel w other gen nanoid req s d s' :
  shortenUrl isURL validateUrl fuel w other gen nanoid req s = Some (Created d, s') ->
  exists code s3 url,
    save isURL fuel w s3 nanoid (cast (urlDataOf w req code (freshId s3)))
    = Some (Ok (url, s'))
    /\ d = dataOf url.
Proof.
  unfold shortenUrl.
  destruct (negb (validateUrl (body_originalUrl req))); [discriminate|].
  destruct (if JS.truthy (body_customCode req) then _ else _) as [[u|]|e];
    try discriminate.
  destruct (ensureUnique _ _ _ _ _ _ _ _) as [[[code|e] i' k' s2]|]; try discriminate.
  destruct (save _ _ _ _ _ _) as [[[url s4]|e]|] eqn:Hs; try discriminate.
  intros [= <- <-]. now exists code, (other k' s2), url.
Qed.

(** A fault on [findOne] leaves the loop no way to a code. *)
Lemma ensureUnique_fault fuel w other gen i k s code e c i' k' s' :
  fault w OpFindOne = Some e ->
  ensureUnique fuel w other gen i k s code <> Some (mkLoopEnd (Ok c) i' k' s').
Proof.
  intros Hf. destruct fuel as [|fuel]; simpl; [discriminate|].
  unfold attempt. rewrite Hf. discriminate.
Qed.

(** The sequential run that ends in a 201: the code is free, the document
    passes validation and the unique index, and is appended. *)
Lemma shortenUrl_created_inv isURL validateUrl fuel w gen nanoid req s d s' :
  shortenUrl isURL validateUrl fuel w quiet gen nanoid req s = Some (Created d, s') ->
  exists code,
    validateUrl (body_originalUrl req) = true
    /\ findOne (byShortCode code) s = None
    /\ (JS.truthy (body_customCode req) = true -> body_customCode req = Some code)
    /\ validationErrors isURL (now w) (cast (urlDataOf w req code (freshId s))) = []
    /\ duplicateCode s (createdDoc w req code (freshId s)) = false
    /\ s' = (s ++ [createdDoc w req code (freshId s)])%list
    /\ d = dataOf (createdDoc w req code (freshId s)).
Proof.
  unfold shortenUrl.
  destruct (validateUrl (body_originalUrl req)) eqn:Hval; [|discriminate]. simpl negb. cbv iota.
  destruct (fault w OpFindOne) as [e|] eqn:Hf.
  { destruct (JS.truthy (body_customCode req)).
    - unfold attempt. rewrite Hf. discriminate.
    - destruct (ensureUnique _ _ _ _ _ _ _ _) as [[[code|e'] i' k' s2]|] eqn:Hloop;
        try discriminate.
      now apply (ensureUnique_fault _ _ _ _ _ _ _ _ e) in Hloop. }
  destruct (JS.truthy (body_customCode req)) eqn:Ht.
  - change (quiet 0%nat s) with s. unfold attempt. rewrite Hf.
    destruct (findOne (customQuery _) s) eqn:Hc; [discriminate|].
    assert (Hfree : findOne (byShortCode (JS.or_else (body_customCode req) "")) s = None).
    { revert Hc. apply find_none_weaken. intros a Ha. unfold customQuery.
      now rewrite Ha. }
    destruct fuel as [|fuel]; [discriminate|].
    simpl ensureUnique. change (quiet 1%nat s) with s. unfold attempt.
    rewrite Hf, Hfree. change (quiet 2%nat s) with s.
    destruct (save _ _ _ _ _ _) as [[[url s4]|e]|] eqn:Hs; try discriminate.
    intros [= <- <-]. apply save_create_inv in Hs as (Hv & -> & Hdup & ->).
    exists (JS.or_else (body_customCode req) "").
    repeat split; auto. intros _. now apply truthy_some.
  - destruct (ensureUnique _ _ _ _ _ _ _ _) as [[[code|e] i' k' s2]|] eqn:Hloop;
      try discriminate.
    apply (ensureUnique_ok_inv w gen s Hf) in Hloop as [-> Hfree].
    change (quiet k' s) with s.
    destruct (save _ _ _ _ _ _) as [[[url s4]|e]|] eqn:Hs; try discriminate.
    intros [= <- <-]. apply save_create_inv in Hs as (Hv & -> & Hdup & ->).
    exists code. repeat split; auto. discriminate.
Qed.

(** The save inside [Url.create] goes through for a valid destination, a
    well-formed free code and an expiry, if any, in the future. *)
Lemma create_saves isURL fuel w s nanoid req code :
  fault w OpSave = None ->
  isURL (body_originalUrl req) = true ->
  body_originalUrl req <> "" ->
  JS.trim (body_originalUrl req) = body_originalUrl req ->
  validCode code ->
  findOne (byShortCode code) s = None ->
  expiresAt_validator (now w) (body_expiresAt req) = true ->
  save isURL fuel w s nanoid (cast (urlDataOf w req code (freshId s)))
  = Some (Ok (createdDoc w req code (freshId s),
              (s ++ [createdDoc w req code (freshId s)])%list)).
Proof.
  intros Hsave Hurl Hne Htrim [Hmatch [Hmin Hmax]] Hfree Hexp.
  pose proof (trim_code code Hmatch) as Hcode.
  assert (Hcne : code <> "").
  { intros ->. discriminate Hmatch. }
  set (u := cast (urlDataOf w req code (freshId s))).
  assert (Ho : originalUrl u = body_originalUrl req) by exact Htrim.
  assert (Hc : shortCode u = code) by exact Hcode.
  assert (Hsu : shortUrl u <> "").
  { change (shortUrl u)
      with (JS.or_else (BASE_URL w) "http://localhost:5052" ++ "/" ++ code)%string.
    apply append_nonempty, or_else_nonempty. discriminate. }
  assert (Hv : validationErrors isURL (now w) u = []).
  { unfold validationErrors. rewrite Ho, Hc.
    change (clicks u) with 0. change (uniqueClicks u) with 0.
    rewrite (cast_expiresAt w req code (freshId s) : expiresAt u = _).
    apply String.eqb_neq in Hne, Hcne, Hsu.
    rewrite Hne, Hcne, Hsu, Hurl, Hmatch, Hexp.
    apply Z.leb_le in Hmin, Hmax. rewrite Hmin, Hmax. reflexivity. }
  assert (Hpre : preSave fuel w s nanoid u
                 = Some (Ok (createdDoc w req code (freshId s)))).
  { rewrite preSave_with_code by (rewrite Hc; exact Hcne). reflexivity. }
  unfold save, validate. rewrite Hv, Hpre.
  unfold attempt. rewrite Hsave. simpl bindRes.
  assert (Hdup : duplicateCode s (createdDoc w req code (freshId s)) = false).
  { unfold duplicateCode.
    destruct (existsb _ s) eqn:E; [|reflexivity].
    apply existsb_exists in E as (v & Hin & Hq).
    apply andb_true_iff in Hq as [_ Hq].
    change (shortCode (createdDoc w req code (freshId s))) with (shortCode u) in Hq.
    rewrite Hc in Hq.
    pose proof (find_none _ _ Hfree v Hin) as Hn. unfold byShortCode in Hn.
    rewrite Hcode in Hn. congruence. }
  rewrite Hdup, write_fresh by reflexivity. reflexivity.
Qed.

(** Creation goes through: the custom check passes, the loop reaches its
    first free candidate, the document is saved. *)
Lemma shortenUrl_creates isURL validateUrl fuel w gen nanoid req s n :
  let custom := JS.truthy (body_customCode req) in
  let first := if custom then JS.or_else (body_customCode req) "" else gen 0%nat in
  let i := if custom then 0%nat else 1%nat in
  let code := candidate gen i first n in
  validateUrl (body_originalUrl req) = true ->
  isURL (body_originalUrl req) = true ->
  body_originalUrl req <> "" ->
  JS.trim (body_originalUrl req) = body_originalUrl req ->
  noFaults w ->
  (custom = true -> findOne (customQuery first) s = None) ->
  (forall j, (j < n)%nat -> taken s (candidate gen i first j)) ->
  findOne (byShortCode code) s = None ->
  (n < fuel)%nat ->
  validCode code ->
  expiresAt_validator (now w) (body_expiresAt req) = true ->
  shortenUrl isURL validateUrl fuel w quiet gen nanoid req s
  = Some (Created (dataOf (createdDoc w req code (freshId s))),
          (s ++ [createdDoc w req code (freshId s)])%list).
Proof.
  intros custom first i code Hval Hurl Hne Htrim Hnf Hcustom Htaken Hfree Hfuel Hcode Hexp.
  unfold shortenUrl. rewrite Hval. simpl negb. cbv iota.
  fold custom. subst first i code. destruct custom.
  - change (quiet 0%nat s) with s. unfold attempt at 1. rewrite (Hnf OpFindOne).
    rewrite (Hcustom eq_refl).
    rewrite (ensureUnique_stops_at_first_free w gen s (Hnf OpFindOne) n fuel)
      by assumption.
    change (quiet (1 + n + 1)%nat s) with s.
    now rewrite (create_saves isURL fuel w s nanoid req _ (Hnf OpSave)).
  - rewrite (ensureUnique_stops_at_first_free w gen s (Hnf OpFindOne) n fuel)
      by assumption.
    change (quiet (0 + n + 1)%nat s) with s.
    now rewrite (create_saves isURL fuel w s nanoid req _ (Hnf OpSave)).
Qed.

(** Once a sequential creation has answered 201, resolving the returned code
    redirects to the destination as it was stored. *)
Lemma created_then_resolved isURL validateUrl fuel w gen nanoid req s d s' w' lookup rreq :
  shortenUrl isURL validateUrl fuel w quiet gen nanoid req s = Some (Created d, s') ->
  params_shortCode rreq = data_shortCode d ->
  fault w' OpFindOne = None ->
  fault w' OpFindByIdAndUpdate = None ->
  (exists geo, lookup (clientIp rreq) = GeoReturns geo) ->
  (forall e, body_expiresAt req = Some e -> now w' < e) ->
  data_originalUrl d = JS.trim (body_originalUrl req)
  /\ exists s'',
       redirectUrl w' (Some lookup) rreq s'
       = (Redirect 301 (JS.trim (body_originalUrl req)), s'').
Proof.
  intros Hcreate Hcode Hf1 Hf2 [geo Hgeo] Hexp.
  apply shortenUrl_created_inv in Hcreate
    as (code & _ & _ & _ & Hvalid & Hdup & -> & ->).
  set (doc := createdDoc w req code (freshId s)) in *.
  split; [reflexivity|].
  assert (Htrim : JS.trim (shortCode doc) = shortCode doc).
  { apply trim_code. now apply validationErrors_nil in Hvalid as (_ & _ & _ & _ & H & _). }
  assert (Hfind : findOne (redirectQuery (params_shortCode rreq) (now w'))
                          (s ++ [doc])%list = Some doc).
  { unfold findOne. rewrite Hcode. change (data_shortCode (dataOf doc)) with (shortCode doc).
    rewrite find_app_none.
    - cbn [find]. unfold redirectQuery, byShortCode. rewrite Htrim, String.eqb_refl.
      change (isActive doc) with true.
      rewrite (createdDoc_expiresAt w req code (freshId s) : expiresAt doc = _).
      destruct (body_expiresAt req) as [e|]; [|reflexivity].
      simpl. now rewrite (proj2 (Z.ltb_lt _ _) (Hexp e eq_refl)).
    - apply find_none_all. intros v Hv. unfold redirectQuery, byShortCode.
      now rewrite Htrim, (duplicateCode_fresh s doc v eq_refl Hdup Hv). }
  rewrite (redirectUrl_approved w' lookup geo rreq _ doc Hf1 Hf2 Hfind Hgeo).
  eexists. reflexivity.
Qed.

(** The initial existence check: a custom code that a document already
    holds as its code is refused with 409
    [CODE_TAKEN], and the request writes nothing. *)
Lemma shortenUrl_custom_taken isURL validateUrl fuel w other gen nanoid req s c u :
  validateUrl (body_originalUrl req) = true ->
  fault w OpFindOne = None ->
  body_customCode req = Some c -> c <> "" ->
  findOne (customQuery c) (other 0%nat s) = Some u ->
  shortenUrl isURL validateUrl fuel w other gen nanoid req s
  = Some (Json 409 "Custom code already taken" "CODE_TAKEN", other 0%nat s).
Proof.
  intros Hval Hf Hc Hne Hfind. unfold shortenUrl.
  rewrite Hval, Hc. simpl. apply String.eqb_neq in Hne. rewrite Hne. simpl.
  unfold attempt. now rewrite Hf, Hfind.
Qed.

(** Run alone, a request with a custom code is never given another code
    than its own (as the schema trims it). *)
Lemma shortenUrl_custom_kept isURL validateUrl fuel w gen nanoid req s d s' :
  shortenUrl isURL validateUrl fuel w quiet gen nanoid req s = Some (Created d, s') ->
  JS.truthy (body_customCode req) = true ->
  exists c, body_customCode req = Some c /\ data_shortCode d = JS.trim c.
Proof.
  intros H Ht. apply shortenUrl_created_inv in H
    as (code & _ & _ & Hc & _ & _ & _ & ->).
  exists code. split; [now apply Hc|reflexivity].
Qed.


(** C5, evaluated on the code: a request for the custom code "my-link"
    passes the initial existence check; another request takes the code before
    the uniqueness loop runs; the loop then replaces the custom code by a
    generated one and the request is answered 201 with that other code.  When
    the other request comes in after the loop instead, the insert violates
    the unique index and the error goes to [next]; only a code taken at the
    initial check is answered 409 [CODE_TAKEN]. *)
Theorem custom_code_replaced_after_late_collision :
  let req := mkShortenReq "https://example.com" (Some "my-link") None None in
  let run other s :=
    shortenUrl Sample.isURL Sample.isURL 5 Sample.calm other Sample.gen Sample.gen req s in
  (exists d s',
      run Sample.rival [] = Some (Created d, s')
      /\ data_shortCode d = "code0000"
      /\ map shortCode s' = ["my-link"; "code0000"]
      /\ map originalUrl s' = ["https://rival.example"; "https://example.com"])
  /\ option_map fst (run Sample.lateRival [])
     = Some (Next (DuplicateKeyError "shortCode"))
  /\ option_map fst
       (run quiet [Sample.link 7 "my-link" "https://rival.example" true None])
     = Some (Json 409 "Custom code already taken" "CODE_TAKEN").
Proof.
  intros req run. split; [|split; reflexivity].
  eexists. eexists. split; [reflexivity|]. repeat split.
Qed.

(** C6: for every valid destination, a creation that finds a free
    well-formed code answers 201, and resolving the code it returns, before
    the expiry if one was given, redirects to exactly that destination. *)
Theorem create_then_resolve isURL validateUrl fuel w gen nanoid req s n w' lookup :
  let custom := JS.truthy (body_customCode req) in
  let first := if custom then JS.or_else (body_customCode req) "" else gen 0%nat in
  let i := if custom then 0%nat else 1%nat in
  let code := candidate gen i first n in
  validDestination isURL validateUrl (body_originalUrl req) ->
  noFaults w ->
  noFaults w' ->
  (custom = true -> findOne (customQuery first) s = None) ->
  (forall j, (j < n)%nat -> taken s (candidate gen i first j)) ->
  findOne (byShortCode code) s = None ->
  (n < fuel)%nat ->
  validCode code ->
  (forall e, body_expiresAt req = Some e -> now w < e /\ now w' < e) ->
  (forall ip, exists geo, lookup ip = GeoReturns geo) ->
  exists d s',
    shortenUrl isURL validateUrl fuel w quiet gen nanoid req s = Some (Created d, s')
    /\ data_shortCode d = code
    /\ data_originalUrl d = body_originalUrl req
    /\ forall rreq,
         params_shortCode rreq = data_shortCode d ->
         exists s'',
           redirectUrl w' (Some lookup) rreq s'
           = (Redirect 301 (body_originalUrl req), s'').
Proof.
  intros custom first i code (Hval & Hurl & Hne & Htrim) Hnf Hnf' Hcustom Htaken
         Hfree Hfuel Hcode Hexp Hgeo.
  assert (Hv : expiresAt_validator (now w) (body_expiresAt req) = true).
  { apply expiresAt_validator_true. destruct (body_expiresAt req) as [e|]; [right|now left].
    exists e. split; [reflexivity|]. now apply Hexp. }
  pose proof (shortenUrl_creates isURL validateUrl fuel w gen nanoid req s n
                Hval Hurl Hne Htrim Hnf Hcustom Htaken Hfree Hfuel Hcode Hv) as Hcreate.
  fold custom first i code in Hcreate.
  eexists. eexists. split; [exact Hcreate|].
  split; [exact (trim_code code (proj1 Hcode))|].
  split; [exact Htrim|].
  intros rreq Hr.
  destruct (created_then_resolved isURL validateUrl fuel w gen nanoid req s _ _ w'
              lookup rreq Hcreate Hr (Hnf' OpFindOne) (Hnf' OpFindByIdAndUpdate)
              (Hgeo (clientIp rreq)) (fun e He => proj2 (Hexp e He)))
    as (_ & s'' & Hres).
  exists s''. now rewrite Htrim in Hres.
Qed.

Lemma create_then_resolve_witness :
  exists d s',
    shortenUrl Sample.isURL Sample.isURL 5 Sample.calm quiet Sample.gen Sample.gen
               (mkShortenReq "https://example.com" None None None) []
    = Some (Created d, s')
    /\ data_shortCode d = "code0000"
    /\ data_originalUrl d = "https://example.com"
    /\ forall rreq,
         params_shortCode rreq = data_shortCode d ->
         exists s'',
           redirectUrl Sample.calm (Some (fun _ => GeoReturns None)) rreq s'
           = (Redirect 301 "https://example.com", s'').
Proof.
  refine (create_then_resolve Sample.isURL Sample.isURL 5 Sample.calm Sample.gen
            Sample.gen (mkShortenReq "https://example.com" None None None) []
            0 Sample.calm (fun _ => GeoReturns None) _ _ _ _ _ eq_refl _ _ _ _).
  - repeat split; try reflexivity. discriminate.
  - intros op. reflexivity.
  - intros op. reflexivity.
  - discriminate.
  - intros j Hj. lia.
  - lia.
  - split; [reflexivity|]. split; discriminate.
  - discriminate.
  - intros ip. now exists None.
Defined.

(** A save that goes through carries no expiry or one in the future. *)
Lemma save_ok_expiry isURL fuel w s nanoid u r :
  save isURL fuel w s nanoid u = Some (Ok r) ->
  expiresAt u = None \/ exists d, expiresAt u = Some d /\ now w < d.
Proof.
  destruct r as [u' s']. intros H.
  apply save_ok_inv in H as (Hv & _).
  apply validationErrors_nil in Hv as (_ & _ & _ & _ & _ & _ & _ & Hv).
  now apply expiresAt_validator_true.
Qed.

(** C10: a document whose expiry is not strictly after the instant of the
    save fails schema validation on [expiresAt], so that no save of it goes
    through: [incrementClicks] on an expired link is rejected, and a
    creation request with such an expiry is never answered 201. *)
Theorem past_expiry_fails_validation isURL fuel w nanoid d :
  d <= now w ->
  (forall s u,
      expiresAt u = Some d ->
      exists errs,
        save isURL fuel w s nanoid u = Some (Throw (ValidationError errs))
        /\ In ("expiresAt", "Expiration date must be in the future") errs)
  /\ (forall s u,
         expiresAt u = Some d ->
         exists errs,
           incrementClicks isURL fuel w s nanoid u = Some (Throw (ValidationError errs))
           /\ In ("expiresAt", "Expiration date must be in the future") errs)
  /\ (forall validateUrl other gen req s data s',
         body_expiresAt req = Some d ->
         shortenUrl isURL validateUrl fuel w other gen nanoid req s
         <> Some (Created data, s')).
Proof.
  intros Hd.
  pose proof (expiresAt_validator_false (now w) d Hd) as Hfalse.
  assert (Hsave : forall s u,
             expiresAt u = Some d ->
             exists errs,
               save isURL fuel w s nanoid u = Some (Throw (ValidationError errs))
               /\ In ("expiresAt", "Expiration date must be in the future") errs).
  { intros s u Hu. exists (validationErrors isURL (now w) u). split.
    - apply save_rejects_expiry. now rewrite Hu.
    - apply validationErrors_expiresAt. now rewrite Hu. }
  split; [exact Hsave|]. split.
  - intros s u Hu. unfold incrementClicks. apply Hsave. exact Hu.
  - intros validateUrl other gen req s data s' Hreq Hcreated.
    apply shortenUrl_created_saved in Hcreated as (code & s3 & url & Hs & _).
    apply save_ok_expiry in Hs.
    rewrite cast_expiresAt, Hreq in Hs. destruct Hs as [Hs|(e & [= <-] & He)]; [discriminate|lia].
Qed.

Lemma past_expiry_fails_validation_witness :
  exists errs,
    incrementClicks Sample.isURL 0 Sample.calm
      [Sample.link 2 "old456" "https://example.com" true (Some 999)]
      Sample.gen (Sample.link 2 "old456" "https://example.com" true (Some 999))
    = Some (Throw (ValidationError errs))
    /\ In ("expiresAt", "Expiration date must be in the future") errs.
Proof.
  refine (proj1 (proj2 (past_expiry_fails_validation Sample.isURL 0 Sample.calm
                          Sample.gen 999 _))
                [Sample.link 2 "old456" "https://example.com" true (Some 999)]
                (Sample.link 2 "old456" "https://example.com" true (Some 999))
                eq_refl).
  simpl. lia.
Defined.

End ShortenFacts.

(** ** Counting clicks *)

Module ClickFacts.

Import Db Schema UrlController DbFacts RedirectFacts.

(** One successful resolve of a link's code rewrites that link, and only
    through [$inc]. *)
Lemma redirect_step w geoip req s st loc s' id u :
  uniqueIndexes s ->
  findById id s = Some u ->
  JS.trim (params_shortCode req) = shortCode u ->
  redirectUrl w geoip req s = (Redirect st loc, s') ->
  uniqueIndexes s'
  /\ exists geo, findById id s' = Some (inc_clicks_push (clickDataOf w req geo) u).
Proof.
  intros Hu Hid Hcode Hr.
  apply redirectUrl_redirect_inv in Hr
    as (url & lookup & geo & Hfind & _ & _ & _ & _ & _ & ->).
  apply find_some in Hfind as [Hin Hq].
  apply redirectQuery_accessible in Hq as (Hc & _ & _).
  pose proof Hid as Hid'. apply find_some in Hid' as [Hin' Hb].
  assert (url = u) as ->.
  { apply (nodup_map_inj shortCode s); [apply Hu| | |congruence]; assumption. }
  unfold byId in Hb. apply Nat.eqb_eq in Hb. rewrite Hb.
  split.
  - apply uniqueIndexes_updateOne; auto.
  - exists geo. now apply findById_updateOne_same.
Qed.

(** Any number of successful resolves of one link raise its [clicks] by that
    number and leave both unique-visitor counters where they were, whatever
    the addresses. *)
Lemma resolves_count_clicks geoip visits :
  forall s id u resps s',
    uniqueIndexes s ->
    findById id s = Some u ->
    Forall (fun v => JS.trim (params_shortCode (snd v)) = shortCode u) visits ->
    resolveAll geoip visits s = (resps, s') ->
    forallb isRedirect resps = true ->
    exists u',
      findById id s' = Some u'
      /\ clicks u' = clicks u + Z.of_nat (List.length visits)
      /\ uniqueClicks u' = uniqueClicks u
      /\ analytics_uniqueVisitors u' = analytics_uniqueVisitors u.
Proof.
  induction visits as [|[w req] rest IH]; intros s id u resps s' Hu Hid Hall Hrun Hok.
  - injection Hrun as <- <-. exists u. repeat split; auto. simpl. lia.
  - simpl in Hrun.
    destruct (redirectUrl w geoip req s) as [r s1] eqn:E1.
    destruct (resolveAll geoip rest s1) as [rs s2] eqn:E2.
    injection Hrun as <- <-.
    simpl in Hok. apply andb_true_iff in Hok as [Hr Hrs].
    destruct r as [| | |st loc|]; try discriminate.
    inversion Hall as [|? ? Hhead Htail]; subst. simpl in Hhead.
    destruct (redirect_step w geoip req s st loc s1 id u Hu Hid Hhead E1)
      as (Hu1 & geo & Hid1).
    destruct (IH s1 id _ rs s2 Hu1 Hid1 Htail E2 Hrs)
      as (u' & Hfin & Hc & Huc & Huv).
    exists u'. split; [exact Hfin|].
    simpl in Hc, Huc, Huv.
    repeat split; auto.
    rewrite Hc. simpl List.length. lia.
Qed.

(** C7, evaluated on the code: three successful resolves of one link from
    two distinct addresses, a second apart, leave the click counter at 3, as
    claimed, and both unique-visitor counters at 0, not 2.  [redirectUrl]
    makes no use of what the models provide for the purpose:
    [isUniqueVisitor], asked for the three events in turn, answers yes, yes
    and no, which is the 2 of the claim. *)
Theorem three_clicks_leave_unique_counter_at_zero :
  let l := Sample.link 1 "abc123" "https://example.com" true None in
  let at_ t := mkWorld t None (fun _ => None) in
  let visits := [(at_ 1000, Sample.visit "abc123" "1.1.1.1");
                 (at_ 2000, Sample.visit "abc123" "2.2.2.2");
                 (at_ 3000, Sample.visit "abc123" "1.1.1.1")] in
  let out := resolveAll Sample.geoLoaded visits [l] in
  let e1 := mkAnalytics 1 "1.1.1.1" 1000 in
  let e2 := mkAnalytics 1 "2.2.2.2" 2000 in
  let e3 := mkAnalytics 1 "1.1.1.1" 3000 in
  fst out = [Redirect 301 "https://example.com"; Redirect 301 "https://example.com";
             Redirect 301 "https://example.com"]
  /\ option_map clicks (findById 1 (snd out)) = Some 3
  /\ option_map uniqueClicks (findById 1 (snd out)) = Some 0
  /\ option_map analytics_uniqueVisitors (findById 1 (snd out)) = Some 0
  /\ option_map uniqueClicks (findById 1 (snd out)) <> Some 2
  /\ isUniqueVisitor 1000 [] e1 = true
  /\ isUniqueVisitor 2000 [e1] e2 = true
  /\ isUniqueVisitor 3000 [e1; e2] e3 = false.
Proof. repeat split; try reflexivity. discriminate. Qed.

End ClickFacts.

(** ** Analytics time frames *)

Module TimeframeFacts.

Import AnalyticsControllers.






End TimeframeFacts.

(** * Further properties of the handlers *)

(** ** Creation: what it writes *)

Module CreationFacts.

Import Db Schema UrlController SchemaFacts LoopFacts ShortenFacts.

Lemma nodup_snoc {A} (l : list A) (x : A) :
  NoDup l -> ~ In x l -> NoDup (l ++ [x]).
Proof.
  induction l as [|a l IH]; simpl; intros Hnd Hx.
  - constructor; [intros []|constructor].
  - inversion Hnd as [|? ? Ha Hl]; subst. constructor.
    + intros Hin. apply in_app_or in Hin as [Hin|[<-|[]]]; [contradiction|].
      apply Hx. now left.
    + apply IH; [exact Hl|]. intros Hin. apply Hx. now right.
Qed.

(** Run alone, the loop hands back the collection it was given. *)
Lemma ensureUnique_quiet_store fuel :
  forall w gen i k s code e,
    ensureUnique fuel w quiet gen i k s code = Some e -> loop_store e = s.
Proof.
  induction fuel as [|fuel IH]; intros w gen i k s code e; simpl; [discriminate|].
  change (quiet k s) with s. unfold attempt.
  destruct (fault w OpFindOne).
  - now intros [= <-].
  - destruct (findOne (byShortCode code) s).
    + apply IH.
    + now intros [= <-].
Qed.

(** The outcomes of a creation request that runs alone. *)
Lemma shortenUrl_outcome isURL validateUrl fuel w gen nanoid req s r s' :
  shortenUrl isURL validateUrl fuel w quiet gen nanoid req s = Some (r, s') ->
  (exists code,
      r = Created (dataOf (createdDoc w req code (freshId s)))
      /\ s' = (s ++ [createdDoc w req code (freshId s)])%list
      /\ duplicateCode s (createdDoc w req code (freshId s)) = false)
  \/ ((forall d, r <> Created d) /\ s' = s).
Proof.
  intros H. destruct r as [st m e|d|id|st loc|e].
  2:{ left. apply shortenUrl_created_inv in H
        as (code & _ & _ & _ & _ & Hdup & -> & ->).
      now exists code. }
  all: right; split; [discriminate|].
  all: revert H; unfold shortenUrl.
  all: destruct (negb (validateUrl (body_originalUrl req))); [now intros [= <-]|].
  all: destruct (JS.truthy (body_customCode req)).
  all: try change (quiet 0%nat s) with s.
  all: try (destruct (attempt w OpFindOne (findOne _ s)) as [[u|]|e0];
            [now intros [= <-]| |now intros [= <-]]).
  all: destruct (ensureUnique _ _ _ _ _ _ _ _) as [[[code|e0] i' k' s2]|] eqn:Hloop;
    try discriminate.
  all: apply ensureUnique_quiet_store in Hloop; simpl in Hloop; subst s2.
  all: try (now intros [= <-]).
  all: change (quiet k' s) with s.
  all: destruct (save _ _ _ _ _ _) as [[[url s4]|e1]|]; try discriminate.
  all: now intros [= <-].
Qed.

(** X1: a creation request that runs alone either answers 201 and appends
    exactly one document (new [_id], active, no clicks) to the collection, or
    answers otherwise and leaves the collection as it was; it never alters
    or removes a stored link. *)
Theorem shortenUrl_appends_or_leaves isURL validateUrl fuel w gen nanoid req s r s' :
  shortenUrl isURL validateUrl fuel w quiet gen nanoid req s = Some (r, s') ->
  match r with
  | Created d =>
      exists doc,
        s' = (s ++ [doc])%list /\ d = dataOf doc
        /\ ~ In (_id doc) (map _id s)
        /\ isActive doc = true /\ clicks doc = 0 /\ uniqueClicks doc = 0
        /\ analytics_totalClicks doc = 0 /\ analytics_uniqueVisitors doc = 0
        /\ lastAccessedAt doc = None
  | _ => s' = s
  end.
Proof.
  intros H. apply shortenUrl_outcome in H as [(code & -> & -> & _)|[Hr ->]].
  - exists (createdDoc w req code (freshId s)). repeat split; try reflexivity.
    intros Hin. apply in_map_iff in Hin as (v & Hid & Hv).
    pose proof (freshId_above s v Hv) as Hlt.
    change (_id (createdDoc w req code (freshId s))) with (freshId s) in Hid. lia.
  - destruct r; try reflexivity. now destruct (Hr data).
Qed.

Lemma shortenUrl_appends_or_leaves_witness :
  exists doc,
    [Sample.link 7 "my-link" "https://rival.example" true None;
     createdDoc Sample.calm (mkShortenReq "https://example.com" None None None)
                "code0000" 8]
    = ([Sample.link 7 "my-link" "https://rival.example" true None] ++ [doc])%list
    /\ dataOf (createdDoc Sample.calm
                 (mkShortenReq "https://example.com" None None None) "code0000" 8)
       = dataOf doc
    /\ ~ In (_id doc)
         (map _id [Sample.link 7 "my-link" "https://rival.example" true None])
    /\ isActive doc = true /\ clicks doc = 0 /\ uniqueClicks doc = 0
    /\ analytics_totalClicks doc = 0 /\ analytics_uniqueVisitors doc = 0
    /\ lastAccessedAt doc = None.
Proof.
  exact (shortenUrl_appends_or_leaves Sample.isURL Sample.isURL 5 Sample.calm
           Sample.gen Sample.gen (mkShortenReq "https://example.com" None None None)
           [Sample.link 7 "my-link" "https://rival.example" true None]
           _ _ eq_refl).
Defined.

(** X2: a creation request that runs alone keeps the unique indexes of the
    collection: no two links share an [_id] or a short code afterwards,
    whatever the request's answer. *)
Theorem shortenUrl_keeps_unique_indexes isURL validateUrl fuel w gen nanoid req s r s' :
  uniqueIndexes s ->
  shortenUrl isURL validateUrl fuel w quiet gen nanoid req s = Some (r, s') ->
  uniqueIndexes s'.
Proof.
  intros [Hids Hcodes] H.
  apply shortenUrl_outcome in H as [(code & _ & -> & Hdup)|[_ ->]]; [|now split].
  set (doc := createdDoc w req code (freshId s)) in *.
  split; rewrite map_app; simpl; apply nodup_snoc; auto.
  - intros Hin. apply in_map_iff in Hin as (v & Hid & Hv).
    pose proof (freshId_above s v Hv) as Hlt.
    change (_id doc) with (freshId s) in Hid. lia.
  - intros Hin. apply in_map_iff in Hin as (v & Hc & Hv).
    pose proof (duplicateCode_fresh s doc v eq_refl Hdup Hv) as Hne.
    apply String.eqb_neq in Hne. contradiction.
Qed.

Lemma shortenUrl_keeps_unique_indexes_witness :
  uniqueIndexes
    [Sample.link 7 "my-link" "https://rival.example" true None;
     createdDoc Sample.calm (mkShortenReq "https://example.com" None None None)
                "code0000" 8].
Proof.
  refine (shortenUrl_keeps_unique_indexes Sample.isURL Sample.isURL 5 Sample.calm
            Sample.gen Sample.gen (mkShortenReq "https://example.com" None None None)
            [Sample.link 7 "my-link" "https://rival.example" true None]
            _ _ _ eq_refl).
  split; repeat constructor; simpl; intuition.
Defined.

(** X3: the short URL of a created link, as stored and as returned, is the
    one the schema's pre-save hook writes, built on [BASE_URL] or else on
    http://localhost:3000; the controller's own default,
    http://localhost:5052, never reaches the document or the response. *)
Theorem created_shortUrl_is_the_hooks isURL validateUrl fuel w other gen nanoid req s d s' :
  shortenUrl isURL validateUrl fuel w other gen nanoid req s = Some (Created d, s') ->
  data_shortUrl d
  = (JS.or_else (BASE_URL w) "http://localhost:3000" ++ "/" ++ data_shortCode d)%string
  /\ (BASE_URL w = None ->
      data_shortUrl d = ("http://localhost:3000/" ++ data_shortCode d)%string)
  /\ exists doc, In doc s' /\ dataOf doc = d.
Proof.
  intros H. apply shortenUrl_created_saved in H as (code & s3 & url & Hs & ->).
  apply save_create_inv in Hs as (_ & -> & _ & ->).
  split; [reflexivity|]. split.
  - intros Hb. change (data_shortUrl (dataOf (createdDoc w req code (freshId s3))))
      with (JS.or_else (BASE_URL w) "http://localhost:3000" ++ "/"
            ++ JS.trim code)%string.
    now rewrite Hb.
  - eexists. split; [|reflexivity]. apply in_or_app. right. now left.
Qed.

Lemma created_shortUrl_is_the_hooks_witness :
  data_shortUrl
    (dataOf (createdDoc Sample.calm (mkShortenReq "https://example.com" None None None)
                        "code0000" 1))
  = "http://localhost:3000/code0000".
Proof.
  refine (proj1 (proj2 (created_shortUrl_is_the_hooks Sample.isURL Sample.isURL 5
                          Sample.calm quiet Sample.gen Sample.gen
                          (mkShortenReq "https://example.com" None None None) []
                          _ _ eq_refl)) eq_refl).
Defined.

End CreationFacts.

(** ** Resolving: what it writes and whom it serves *)

Module ResolveFacts.

Import Db Schema UrlController DbFacts RedirectFacts ClickFacts.

(** X4: a resolve writes to the collection only when it redirects: with any
    other answer the collection is left as it was; and even then it changes
    nothing in any link but [clicks] (identity, code, destination, owner,
    activity, expiry, unique-click and analytics counters, last access are
    as they were), nor the number of links. *)
Theorem redirectUrl_writes_only_clicks w geoip req s r s' :
  redirectUrl w geoip req s = (r, s') ->
  (isRedirect r = false -> s' = s)
  /\ map identity s' = map identity s
  /\ List.length s' = List.length s.
Proof.
  unfold redirectUrl.
  destruct (attempt w OpFindOne _) as [[url|]|e]; try (now intros [= <- <-]).
  destruct geoip as [lookup|]; [|now intros [= <- <-]].
  destruct (lookup (clientIp req)) as [e|geo]; [now intros [= <- <-]|].
  destruct (attempt w OpFindByIdAndUpdate _) as [s1|e] eqn:Hw; [|now intros [= <- <-]].
  intros [= <- <-]. unfold attempt in Hw.
  destruct (fault w OpFindByIdAndUpdate); [discriminate|]. injection Hw as <-.
  split; [discriminate|]. split.
  - now apply updateOne_map_inv.
  - apply updateOne_length.
Qed.

Lemma redirectUrl_writes_only_clicks_witness :
  (isRedirect (Next (MongoError "connection lost")) = false ->
   [Sample.link 1 "abc123" "https://example.com" true None]
   = [Sample.link 1 "abc123" "https://example.com" true None])
  /\ map identity [Sample.link 1 "abc123" "https://example.com" true None]
     = map identity [Sample.link 1 "abc123" "https://example.com" true None]
  /\ List.length [Sample.link 1 "abc123" "https://example.com" true None]
     = List.length [Sample.link 1 "abc123" "https://example.com" true None].
Proof.
  exact (redirectUrl_writes_only_clicks Sample.writeDown Sample.geoLoaded
           (Sample.visit "abc123" "1.1.1.1")
           [Sample.link 1 "abc123" "https://example.com" true None] _ _ eq_refl).
Defined.

(** X5: a resolve never redirects on behalf of a link that is inactive or
    past its expiry: the location of every redirect is the destination of a
    stored link with the requested code that the schema's own methods call
    accessible, with status "active". *)
Theorem redirect_serves_accessible_link w geoip req s st loc s' :
  redirectUrl w geoip req s = (Redirect st loc, s') ->
  exists url,
    In url s
    /\ shortCode url = JS.trim (params_shortCode req)
    /\ loc = originalUrl url
    /\ isActive url = true
    /\ isExpired (now w) url = false
    /\ isAccessible (now w) url = true
    /\ status (now w) url = "active".
Proof.
  intros H. apply redirectUrl_redirect_inv in H
    as (url & lookup & geo & Hfind & _ & _ & _ & _ & Hloc & _).
  apply find_some in Hfind as [Hin Hq].
  apply redirectQuery_accessible in Hq as (Hc & Ha & Hexp).
  assert (Hne : isExpired (now w) url = false).
  { unfold isExpired. destruct Hexp as [->|(d & -> & Hd)]; [reflexivity|].
    apply Z.ltb_ge. lia. }
  exists url. unfold isAccessible, status. rewrite Ha, Hne. repeat split; auto.
Qed.

Lemma redirect_serves_accessible_link_witness :
  exists url,
    In url [Sample.link 1 "abc123" "https://example.com" true (Some 5000)]
    /\ shortCode url = "abc123"
    /\ "https://example.com" = originalUrl url
    /\ isActive url = true
    /\ isExpired 1000 url = false
    /\ isAccessible 1000 url = true
    /\ status 1000 url = "active".
Proof.
  exact (redirect_serves_accessible_link Sample.calm Sample.geoLoaded
           (Sample.visit "abc123" "1.1.1.1")
           [Sample.link 1 "abc123" "https://example.com" true (Some 5000)]
           301 "https://example.com" _ eq_refl).
Defined.

(** X6: at the very instant of its expiry a link is not yet expired for the
    schema ([isExpired] is false, the status is "active") but no longer
    served by the resolver, which answers 404: the two tests differ on the
    boundary. *)
Theorem expiry_instant_is_active_but_unserved w geoip req s u :
  fault w OpFindOne = None ->
  In u s ->
  (forall v, In v s -> shortCode v = JS.trim (params_shortCode req) -> v = u) ->
  isActive u = true ->
  expiresAt u = Some (now w) ->
  isExpired (now w) u = false
  /\ isAccessible (now w) u = true
  /\ status (now w) u = "active"
  /\ redirectUrl w geoip req s
     = (Json 404 "Short URL not found or expired" "URL_NOT_FOUND", s).
Proof.
  intros Hf Hin Honly Ha He.
  assert (Hne : isExpired (now w) u = false).
  { unfold isExpired. rewrite He. apply Z.ltb_irrefl. }
  unfold isAccessible, status. rewrite Ha, Hne. repeat split.
  apply redirectUrl_inaccessible; [exact Hf|].
  intros v Hv Hc. rewrite (Honly v Hv Hc). right. exists (now w). split; [exact He|lia].
Qed.

Lemma expiry_instant_is_active_but_unserved_witness :
  let u := Sample.link 1 "abc123" "https://example.com" true (Some 1000) in
  isExpired 1000 u = false
  /\ isAccessible 1000 u = true
  /\ status 1000 u = "active"
  /\ redirectUrl Sample.calm Sample.geoLoaded (Sample.visit "abc123" "1.1.1.1") [u]
     = (Json 404 "Short URL not found or expired" "URL_NOT_FOUND", [u]).
Proof.
  intros u.
  refine (expiry_instant_is_active_but_unserved Sample.calm Sample.geoLoaded
            (Sample.visit "abc123" "1.1.1.1") [u] u eq_refl _ _ eq_refl eq_refl).
  - now left.
  - intros v [<-|[]] _. reflexivity.
Defined.

(** The resolver finds the link that holds the requested code, when that
    link is active and not yet at its expiry. *)
Lemma redirectQuery_finds w req s u :
  uniqueIndexes s ->
  In u s ->
  JS.trim (params_shortCode req) = shortCode u ->
  isActive u = true ->
  (forall d, expiresAt u = Some d -> now w < d) ->
  findOne (redirectQuery (params_shortCode req) (now w)) s = Some u.
Proof.
  intros [_ Hcodes] Hin Hcode Ha Hexp.
  apply (find_unique shortCode); auto.
  - unfold redirectQuery, byShortCode. rewrite Hcode, String.eqb_refl, Ha.
    destruct (expiresAt u) as [d|]; [|reflexivity].
    simpl. apply Z.ltb_lt. now apply Hexp.
  - intros b _ Hb. apply redirectQuery_accessible in Hb as (Hb & _). congruence.
Qed.

(** X7: resolves never touch the link's [analytics.totalClicks] nor its
    [lastAccessedAt].  Any number of visits to an active, unexpired link,
    with the persistence layer and the provider answering, are all answered
    by the redirect to its destination; after them both paths are what they
    were, while [clicks] has grown by one per visit: the two click counters
    of a link drift apart. *)
Theorem resolves_leave_analytics_counter lookup visits :
  forall s u,
    uniqueIndexes s ->
    In u s ->
    isActive u = true ->
    Forall (fun v =>
              JS.trim (params_shortCode (snd v)) = shortCode u
              /\ fault (fst v) OpFindOne = None
              /\ fault (fst v) OpFindByIdAndUpdate = None
              /\ (exists geo, lookup (clientIp (snd v)) = GeoReturns geo)
              /\ (forall d, expiresAt u = Some d -> now (fst v) < d)) visits ->
    exists s' u',
      resolveAll (Some lookup) visits s
      = (map (fun _ => Redirect 301 (originalUrl u)) visits, s')
      /\ findById (_id u) s' = Some u'
      /\ analytics_totalClicks u' = analytics_totalClicks u
      /\ lastAccessedAt u' = lastAccessedAt u
      /\ clicks u' = clicks u + Z.of_nat (List.length visits)
      /\ clicks u' - analytics_totalClicks u'
         = clicks u - analytics_totalClicks u + Z.of_nat (List.length visits).
Proof.
  induction visits as [|[w req] rest IH]; intros s u Hu Hin Ha Hall.
  - exists s, u. split; [reflexivity|].
    split; [apply findById_in; [apply Hu|exact Hin]|].
    repeat split; simpl; lia.
  - inversion Hall as [|? ? (Hcode & Hf1 & Hf2 & (geo & Hgeo) & Hexp) Htail]; subst.
    simpl in Hcode, Hf1, Hf2, Hgeo, Hexp.
    pose proof (redirectQuery_finds w req s u Hu Hin Hcode Ha Hexp) as Hfind.
    pose proof (findById_in s u (proj1 Hu) Hin) as Hid.
    set (f := inc_clicks_push (clickDataOf w req geo)).
    set (s1 := updateOne (byId (_id u)) f s).
    assert (Hu1 : uniqueIndexes s1) by (apply uniqueIndexes_updateOne; auto).
    assert (Hid1 : findById (_id u) s1 = Some (f u)).
    { now apply findById_updateOne_same. }
    assert (Hin1 : In (f u) s1) by (now apply find_some in Hid1).
    destruct (IH s1 (f u) Hu1 Hin1 Ha Htail) as (s' & u' & Hrun & Hfin & Ht & Hl & Hc & _).
    exists s', u'. simpl resolveAll.
    rewrite (redirectUrl_approved w lookup geo req s u Hf1 Hf2 Hfind Hgeo).
    fold f. fold s1. rewrite Hrun.
    split; [reflexivity|]. split; [exact Hfin|].
    simpl in Ht, Hl, Hc.
    repeat split; auto; simpl List.length; lia.
Qed.

Lemma resolves_leave_analytics_counter_witness :
  let l := Sample.link 1 "abc123" "https://example.com" true None in
  exists s' u',
    resolveAll Sample.geoLoaded [(Sample.calm, Sample.visit "abc123" "1.1.1.1")] [l]
    = ([Redirect 301 "https://example.com"], s')
    /\ findById 1 s' = Some u'
    /\ analytics_totalClicks u' = 0
    /\ lastAccessedAt u' = None
    /\ clicks u' = 0 + Z.of_nat 1
    /\ clicks u' - analytics_totalClicks u' = 0 - 0 + Z.of_nat 1.
Proof.
  intros l.
  refine (resolves_leave_analytics_counter (fun _ => GeoReturns None)
            [(Sample.calm, Sample.visit "abc123" "1.1.1.1")] [l] l _ _ eq_refl _).
  - split; repeat constructor; simpl; intuition.
  - now left.
  - repeat constructor. + now exists None. + discriminate.
Defined.

End ResolveFacts.

(** ** Deleting a link *)

Module DeleteFacts.

Import Db Schema UrlController DbFacts RedirectFacts.



(** Looking up by [_id] after the first match of [q] has been rewritten. *)
Lemma findById_updateOne_first q f s u j :
  NoDup (map _id s) ->
  (forall v, _id (f v) = _id v) ->
  findOne q s = Some u ->
  findById j (updateOne q f s)
  = if Nat.eqb (_id u) j then Some (f u) else findById j s.
Proof.
  intros Hnd Hid. unfold findById, findOne.
  induction s as [|a r IH]; simpl; [discriminate|].
  inversion Hnd as [|? ? Hnotin Hnd']; subst.
  destruct (q a) eqn:E.
  - intros [= <-]. simpl. unfold byId. rewrite Hid.
    now destruct (Nat.eqb (_id a) j).
  - intros Hfind. simpl. unfold byId at 1 3. destruct (Nat.eqb (_id a) j) eqn:Ea.
    + apply Nat.eqb_eq in Ea. pose proof Hfind as Hu. apply find_some in Hu as [Hu _].
      destruct (Nat.eqb (_id u) j) eqn:Eu; [|reflexivity].
      apply Nat.eqb_eq in Eu. exfalso. apply Hnotin. rewrite Ea, <- Eu. now apply in_map.
    + apply IH; assumption.
Qed.

(** X8: deleting is a soft delete.  When [deleteUrl] answers with success,
    the link is still stored, under the same [_id], with its code,
    destination and counters; of the paths of the model
    (which has no [updatedAt]) only its [isActive] has changed, to false;
    every other link is as it was. *)
Theorem deleteUrl_only_deactivates w id user s id' s' :
  uniqueIndexes s ->
  deleteUrl w id user s = (Deleted id', s') ->
  id' = id
  /\ map substance s' = map substance s
  /\ exists u,
       findById id s = Some u
       /\ userId u = Some user
       /\ findById id s' = Some (set_isActive false u)
       /\ forall j, j <> id -> findById j s' = findById j s.
Proof.
  intros [Hids _]. unfold deleteUrl, attempt.
  destruct (fault w OpFindOneAndUpdate); [discriminate|].
  destruct (findOne (ownedQuery id user) s) as [u|] eqn:Hfind; [|discriminate].
  intros [= <- <-].
  pose proof Hfind as Hq. apply find_some in Hq as [Hin Hq].
  unfold ownedQuery in Hq. apply andb_true_iff in Hq as [Hid Hown].
  apply Nat.eqb_eq in Hid.
  split; [exact Hid|]. split; [now apply updateOne_map_inv|].
  exists u. split; [|split; [|split]].
  - rewrite <- Hid. now apply findById_in.
  - destruct (userId u) as [o|]; [|discriminate].
    apply Nat.eqb_eq in Hown. now subst.
  - rewrite (findById_updateOne_first (ownedQuery id user) (set_isActive false) s u id
               Hids (fun _ => eq_refl) Hfind).
    now rewrite Hid, Nat.eqb_refl.
  - intros j Hj.
    rewrite (findById_updateOne_first (ownedQuery id user) (set_isActive false) s u j
               Hids (fun _ => eq_refl) Hfind).
    destruct (Nat.eqb (_id u) j) eqn:E; [|reflexivity].
    apply Nat.eqb_eq in E. congruence.
Qed.

Lemma deleteUrl_only_deactivates_witness :
  let l := Sample.owned 1 42 "abc123" "https://example.com" in
  1%nat = 1%nat
  /\ map substance [set_isActive false l] = map substance [l]
  /\ exists u,
       findById 1 [l] = Some u
       /\ userId u = Some 42%nat
       /\ findById 1 [set_isActive false l] = Some (set_isActive false u)
       /\ forall j, j <> 1%nat -> findById j [set_isActive false l] = findById j [l].
Proof.
  intros l.
  refine (deleteUrl_only_deactivates Sample.calm 1 42 [l] 1 _ _ eq_refl).
  split; repeat constructor; simpl; intuition.
Defined.

(** X9: only its owner can delete a link.  When no stored link with the
    given [_id] belongs to the requesting user (it belongs to someone else,
    or to nobody, as links created without an account do), [deleteUrl]
    answers 404 [URL_NOT_FOUND] and leaves the collection as it was. *)
Theorem deleteUrl_refuses_non_owner w id user s :
  fault w OpFindOneAndUpdate = None ->
  (forall u, In u s -> _id u = id -> userId u <> Some user) ->
  deleteUrl w id user s = (Json 404 "URL not found" "URL_NOT_FOUND", s).
Proof.
  intros Hf Hall. unfold deleteUrl, attempt, findOne. rewrite Hf.
  rewrite (find_none_all (ownedQuery id user) s); [reflexivity|].
  intros u Hin. unfold ownedQuery.
  destruct (Nat.eqb (_id u) id) eqn:E; [|reflexivity]. apply Nat.eqb_eq in E.
  specialize (Hall u Hin E).
  destruct (userId u) as [o|]; [|reflexivity].
  destruct (Nat.eqb o user) eqn:Eo; [|reflexivity].
  apply Nat.eqb_eq in Eo. congruence.
Qed.

Lemma deleteUrl_refuses_non_owner_witness :
  deleteUrl Sample.calm 1 42
            [Sample.link 1 "abc123" "https://example.com" true None;
             Sample.owned 2 43 "def456" "https://example.org"]
  = (Json 404 "URL not found" "URL_NOT_FOUND",
     [Sample.link 1 "abc123" "https://example.com" true None;
      Sample.owned 2 43 "def456" "https://example.org"]).
Proof.
  refine (deleteUrl_refuses_non_owner Sample.calm 1 42 _ eq_refl _).
  intros u [<-|[<-|[]]] Hid; discriminate.
Defined.



End DeleteFacts.

(** ** Saving a document *)

Module SaveFacts.

Import Db Schema SchemaFacts LoopFacts.

Lemma validate_throws isURL now u e :
  In e (validationErrors isURL now u) ->
  validate isURL now u = Throw (ValidationError (validationErrors isURL now u)).
Proof.
  unfold validate. destruct (validationErrors isURL now u); [contradiction|reflexivity].
Qed.

(** X11: [save] never generates a short code.  Validation comes before the
    pre-save hook and [shortCode] is required, so a document without a short
    code is rejected with that validation error whatever the fuel and the
    identifier source; the hook's generate-and-check loop is not reached. *)
Theorem save_without_code_is_rejected isURL fuel w s nanoid u :
  shortCode u = "" ->
  save isURL fuel w s nanoid u
  = Some (Throw (ValidationError (validationErrors isURL (now w) u)))
  /\ In ("shortCode", "Path `shortCode` is required.")
        (validationErrors isURL (now w) u).
Proof.
  intros Hc.
  assert (Hin : In ("shortCode", "Path `shortCode` is required.")
                   (validationErrors isURL (now w) u)).
  { unfold validationErrors. rewrite Hc.
    apply in_or_app. right. apply in_or_app. left. now left. }
  split; [|exact Hin]. unfold save. now rewrite (validate_throws _ _ _ _ Hin).
Qed.

Lemma save_without_code_is_rejected_witness :
  let u := mkUrl 1 "https://example.com" "" "http://localhost:3000/" None
                 0 0 true None None 0 0 0 in
  save Sample.isURL 9 Sample.calm [] Sample.gen u
  = Some (Throw (ValidationError (validationErrors Sample.isURL 1000 u)))
  /\ In ("shortCode", "Path `shortCode` is required.")
        (validationErrors Sample.isURL 1000 u).
Proof.
  intros u.
  exact (save_without_code_is_rejected Sample.isURL 9 Sample.calm [] Sample.gen u eq_refl).
Defined.

(** X12: the pre-save hook, run on a document without short code, assigns
    the first identifier of the source that no stored link holds, after one
    existence check per identifier, and derives [shortUrl] from it, leaving
    the rest of the document alone. *)
Theorem preSave_assigns_first_free fuel w s nanoid u n :
  shortCode u = "" ->
  fault w OpFindOne = None ->
  (forall j, (j < n)%nat -> taken s (nanoid j)) ->
  findOne (byShortCode (nanoid n)) s = None ->
  (n < fuel)%nat ->
  exists u',
    preSave fuel w s nanoid u = Some (Ok u')
    /\ shortCode u' = nanoid n
    /\ ~ taken s (shortCode u')
    /\ shortUrl u'
       = (JS.or_else (BASE_URL w) "http://localhost:3000" ++ "/" ++ nanoid n)%string
    /\ _id u' = _id u /\ originalUrl u' = originalUrl u
    /\ userId u' = userId u /\ clicks u' = clicks u.
Proof.
  intros H0 Hf Htaken Hfree Hfuel.
  pose proof (nanoidLoop_stops_at_first_free w s Hf nanoid n fuel 0 Htaken Hfree) as Hloop.
  apply Nat.ltb_lt in Hfuel. rewrite Hfuel in Hloop. simpl in Hloop.
  eexists. unfold preSave. rewrite H0. simpl String.eqb. cbv iota. rewrite Hloop.
  split; [reflexivity|]. split; [reflexivity|].
  split; [intros Ht; apply Ht; exact Hfree|].
  repeat split.
Qed.

Lemma preSave_assigns_first_free_witness :
  exists u',
    preSave 5 Sample.calm Sample.crowded (fun j => Sample.gen (10 + j))
            (set_shortCode "" (Sample.link 99 "abc123" "https://example.com" true None))
    = Some (Ok u')
    /\ shortCode u' = "free0000"
    /\ ~ taken Sample.crowded (shortCode u')
    /\ shortUrl u' = "http://localhost:3000/free0000"
    /\ _id u' = 99%nat /\ originalUrl u' = "https://example.com"
    /\ userId u' = None /\ clicks u' = 0.
Proof.
  refine (preSave_assigns_first_free 5 Sample.calm Sample.crowded
            (fun j => Sample.gen (10 + j))
            (set_shortCode "" (Sample.link 99 "abc123" "https://example.com" true None))
            1 eq_refl eq_refl _ eq_refl _).
  - intros j Hj. destruct j as [|j]; [discriminate|lia].
  - lia.
Defined.

Lemma findById_updateOne_same_const id u' s u :
  _id u' = id ->
  findById id s = Some u ->
  findById id (updateOne (byId id) (fun _ => u') s) = Some u'.
Proof.
  intros Hid. unfold findById, findOne.
  induction s as [|v r IH]; simpl; [discriminate|].
  destruct (byId id v) eqn:E; simpl.
  - intros _. unfold byId. now rewrite Hid, Nat.eqb_refl.
  - rewrite E. exact IH.
Qed.

(** Saving a new version of a stored document, under the unique indexes. *)
Lemma save_in_place isURL fuel w s nanoid u u1 :
  uniqueIndexes s ->
  In u s ->
  _id u1 = _id u ->
  shortCode u1 = shortCode u ->
  validationErrors isURL (now w) u1 = [] ->
  fault w OpSave = None ->
  let u' := set_shortUrl (JS.or_else (BASE_URL w) "http://localhost:3000"
                          ++ "/" ++ shortCode u1) u1 in
  save isURL fuel w s nanoid u1
  = Some (Ok (u', updateOne (byId (_id u)) (fun _ => u') s)).
Proof.
  intros [Hids Hcodes] Hin Hid Hcode Hv Hf u'.
  pose proof (validationErrors_nil _ _ _ Hv) as (_ & _ & Hne & _).
  unfold save, validate. rewrite Hv.
  rewrite (preSave_with_code fuel w s nanoid u1 Hne). fold u'.
  unfold attempt. rewrite Hf. simpl bindRes.
  assert (Hdup : duplicateCode s u' = false).
  { unfold duplicateCode. destruct (existsb _ s) eqn:E; [|reflexivity].
    apply existsb_exists in E as (v & Hv' & Hq).
    apply andb_true_iff in Hq as [Hq1 Hq2].
    apply negb_true_iff, Nat.eqb_neq in Hq1. apply String.eqb_eq in Hq2.
    change (shortCode u') with (shortCode u1) in Hq2.
    change (_id u') with (_id u1) in Hq1.
    exfalso. apply Hq1. rewrite Hid. f_equal.
    apply (nodup_map_inj shortCode s); auto. congruence. }
  rewrite Hdup. unfold write. change (_id u') with (_id u1). rewrite Hid.
  assert (Hex : existsb (byId (_id u)) s = true).
  { apply existsb_exists. exists u. split; [exact Hin|]. apply Nat.eqb_refl. }
  now rewrite Hex.
Qed.

(** X13: [incrementClicks] on a stored, valid link (its expiry, if any,
    still ahead) goes through and rewrites that link in place: [clicks] and
    [analytics.totalClicks] both grow by exactly 1, [lastAccessedAt] becomes
    the instant of the call, and the link is what a lookup by its [_id]
    returns afterwards. *)
Theorem incrementClicks_counts_once isURL fuel w s nanoid u :
  uniqueIndexes s ->
  In u s ->
  validationErrors isURL (now w) u = [] ->
  fault w OpSave = None ->
  exists u' s',
    incrementClicks isURL fuel w s nanoid u = Some (Ok (u', s'))
    /\ clicks u' = clicks u + 1
    /\ analytics_totalClicks u' = analytics_totalClicks u + 1
    /\ lastAccessedAt u' = Some (now w)
    /\ uniqueClicks u' = uniqueClicks u
    /\ originalUrl u' = originalUrl u
    /\ findById (_id u) s' = Some u'
    /\ List.length s' = List.length s.
Proof.
  intros Hu Hin Hv Hf.
  set (u1 := mkUrl (_id u) (originalUrl u) (shortCode u) (shortUrl u)
                   (userId u) (clicks u + 1) (uniqueClicks u) (isActive u)
                   (expiresAt u) (Some (now w)) (analytics_totalClicks u + 1)
                   (analytics_uniqueVisitors u) (createdAt u)).
  assert (Hv1 : validationErrors isURL (now w) u1 = []).
  { pose proof (validationErrors_nil _ _ _ Hv) as (_ & _ & _ & _ & _ & Hc & _).
    revert Hv. unfold validationErrors.
    change (originalUrl u1) with (originalUrl u).
    change (shortCode u1) with (shortCode u).
    change (shortUrl u1) with (shortUrl u).
    change (clicks u1) with (clicks u + 1).
    change (uniqueClicks u1) with (uniqueClicks u).
    change (expiresAt u1) with (expiresAt u).
    rewrite (proj2 (Z.leb_le 0 (clicks u)) Hc).
    rewrite (proj2 (Z.leb_le 0 (clicks u + 1))) by lia. trivial. }
  pose proof (save_in_place isURL fuel w s nanoid u u1 Hu Hin eq_refl eq_refl Hv1 Hf)
    as Hsave.
  cbv zeta in Hsave.
  eexists. eexists. split; [exact Hsave|].
  repeat split.
  - apply (findById_updateOne_same_const (_id u) _ s u); [reflexivity|].
    apply DbFacts.findById_in; [apply Hu|exact Hin].
  - apply DbFacts.updateOne_length.
Qed.

Lemma incrementClicks_counts_once_witness :
  let l := Sample.link 1 "abc123" "https://example.com" true (Some 5000) in
  exists u' s',
    incrementClicks Sample.isURL 0 Sample.calm [l] Sample.gen l = Some (Ok (u', s'))
    /\ clicks u' = 0 + 1
    /\ analytics_totalClicks u' = 0 + 1
    /\ lastAccessedAt u' = Some 1000
    /\ uniqueClicks u' = 0
    /\ originalUrl u' = "https://example.com"
    /\ findById 1 s' = Some u'
    /\ List.length s' = 1%nat.
Proof.
  intros l.
  refine (incrementClicks_counts_once Sample.isURL 0 Sample.calm [l] Sample.gen l
            _ _ eq_refl eq_refl).
  - split; repeat constructor; simpl; intuition.
  - now left.
Defined.

End SaveFacts.

(** ** Cleaning up expired links *)

Module CleanupFacts.

Import Db Schema UrlController UrlModel DbFacts RedirectFacts.

Lemma find_map_stable {A} (q : A -> bool) (g : A -> A) (l : list A) :
  (forall a, q (g a) = q a) ->
  find q (map g l) = option_map g (find q l).
Proof.
  intros Hq. induction l as [|a l IH]; simpl; [reflexivity|].
  rewrite Hq. now destruct (q a).
Qed.

Lemma updateOne_map_comm q f g s :
  (forall u, q (g u) = q u) ->
  (forall u, f (g u) = g (f u)) ->
  updateOne q f (map g s) = map g (updateOne q f s).
Proof.
  intros Hq Hfg. induction s as [|a r IH]; simpl; [reflexivity|].
  rewrite Hq. destruct (q a); simpl; [now rewrite Hfg|now rewrite IH].
Qed.

(** The clean-up's rewriting of one document. *)
Lemma cleanup_as_map now s :
  cleanupExpiredUrls now s
  = map (fun u => if expiredQuery now u then set_isActive false u else u) s.
Proof. reflexivity. Qed.

(** Expired documents fail the resolver's query before and after. *)
Lemma redirectQuery_cleanup code now u :
  redirectQuery code now
                (if expiredQuery now u then set_isActive false u else u)
  = redirectQuery code now u.
Proof.
  unfold expiredQuery.
  destruct (expiresAt u) as [d|] eqn:E; [|reflexivity].
  destruct (d <? now) eqn:Ed; [|reflexivity].
  unfold redirectQuery.
  change (expiresAt (set_isActive false u)) with (expiresAt u).
  rewrite E. apply Z.ltb_lt in Ed.
  rewrite (proj2 (Z.ltb_ge now d)) by lia. now rewrite !andb_false_r.
Qed.

(** X14: after [cleanupExpiredUrls] the list of [getExpiredUrls] is empty.
    The clean-up keeps every link in the collection and, of the paths of the
    model (which has no [updatedAt]), changes nothing but [isActive], which
    it sets to false on the links whose expiry lies in the past (already
    inactive ones included) and leaves alone on all others; running it again
    at the same instant changes nothing. *)
Theorem cleanup_empties_expired_list now s :
  getExpiredUrls now (cleanupExpiredUrls now s) = []
  /\ map substance (cleanupExpiredUrls now s) = map substance s
  /\ (forall u, In u s -> expiredQuery now u = false ->
                In u (cleanupExpiredUrls now s))
  /\ (forall u, In u (getExpiredUrls now s) ->
                In (set_isActive false u) (cleanupExpiredUrls now s))
  /\ cleanupExpiredUrls now (cleanupExpiredUrls now s) = cleanupExpiredUrls now s.
Proof.
  unfold getExpiredUrls, cleanupExpiredUrls, updateMany.
  split; [|split; [|split; [|split]]].
  - induction s as [|a r IH]; simpl; [reflexivity|].
    destruct (expiredQuery now a) eqn:E.
    + change (expiredQuery now (set_isActive false a)) with (expiredQuery now a).
      rewrite E. simpl. exact IH.
    + rewrite E. simpl. exact IH.
  - rewrite map_map. apply map_ext. intros a. now destruct (expiredQuery now a).
  - intros u Hin He. apply in_map_iff. exists u. now rewrite He.
  - intros u Hin. apply filter_In in Hin as [Hin Hq].
    apply andb_true_iff in Hq as [He _].
    apply in_map_iff. exists u. now rewrite He.
  - rewrite map_map. apply map_ext. intros a.
    destruct (expiredQuery now a) eqn:E.
    + change (expiredQuery now (set_isActive false a)) with (expiredQuery now a).
      now rewrite E.
    + now rewrite E.
Qed.

(** X15: the clean-up is invisible to visitors.  A resolve gets the same
    answer whether or not expired links were cleaned up just before
    (at the same instant), and cleaning up before or after the resolve
    leaves the same collection. *)
Theorem cleanup_commutes_with_resolve w geoip req s :
  redirectUrl w geoip req (cleanupExpiredUrls (now w) s)
  = (fst (redirectUrl w geoip req s),
     cleanupExpiredUrls (now w) (snd (redirectUrl w geoip req s))).
Proof.
  set (g := fun u => if expiredQuery (now w) u then set_isActive false u else u).
  unfold redirectUrl, attempt.
  destruct (fault w OpFindOne); [reflexivity|].
  unfold findOne. rewrite cleanup_as_map. fold g.
  rewrite (find_map_stable _ g) by (intros a; apply redirectQuery_cleanup).
  destruct (find _ s) as [url|] eqn:Hfind; simpl option_map; [|reflexivity].
  assert (Hg : g url = url).
  { apply find_some in Hfind as [_ Hq].
    apply redirectQuery_accessible in Hq as (_ & _ & Hexp).
    unfold g, expiredQuery.
    destruct Hexp as [->|(d & -> & Hd)]; [reflexivity|].
    now rewrite (proj2 (Z.ltb_ge d (now w))) by lia. }
  rewrite Hg.
  destruct geoip as [lookup|]; [|reflexivity].
  destruct (lookup (clientIp req)) as [e|geo]; [reflexivity|].
  destruct (fault w OpFindByIdAndUpdate); [reflexivity|].
  simpl fst. simpl snd. rewrite cleanup_as_map. fold g. f_equal.
  apply updateOne_map_comm.
  - intros u. unfold g, byId. now destruct (expiredQuery (now w) u).
  - intros u. unfold g.
    change (expiredQuery (now w) (inc_clicks_push (clickDataOf w req geo) u))
      with (expiredQuery (now w) u).
    now destruct (expiredQuery (now w) u).
Qed.

End CleanupFacts.

(** ** Input validation and sanitizing *)

Module ValidationFacts.

Import Schema JSFacts SchemaFacts Validation.

Lemma length_chars s : List.length (chars s) = String.length s.
Proof. induction s as [|c r IH]; simpl; auto. Qed.

Lemma chars_app a b : chars (a ++ b)%string = (chars a ++ chars b)%list.
Proof. induction a as [|c r IH]; simpl; [reflexivity|]. now rewrite IH. Qed.

Lemma length_append a b : JS.length (a ++ b)%string = JS.length a + JS.length b.
Proof. induction a as [|c r IH]; simpl; [reflexivity|]. rewrite IH. lia. Qed.

Lemma strip_chars cls s : chars (Lib.strip cls s) = filter (fun c => negb (cls c)) (chars s).
Proof.
  induction s as [|c r IH]; simpl; [reflexivity|].
  destruct (cls c); simpl; [exact IH|now rewrite IH].
Qed.

Lemma strip_id cls s :
  forallb (fun c => negb (cls c)) (chars s) = true -> Lib.strip cls s = s.
Proof.
  induction s as [|c r IH]; simpl; [reflexivity|].
  intros H. apply andb_true_iff in H as [Hc Hr].
  apply negb_true_iff in Hc. rewrite Hc. now rewrite IH.
Qed.

Lemma strip_length cls s : JS.length (Lib.strip cls s) <= JS.length s.
Proof.
  induction s as [|c r IH]; simpl; [lia|].
  pose proof (units_nonneg c). destruct (cls c); simpl; lia.
Qed.

Lemma filter_length_le {A} (p : A -> bool) (l : list A) :
  (List.length (filter p l) <= List.length l)%nat.
Proof.
  induction l as [|a l IH]; simpl; [lia|]. destruct (p a); simpl; lia.
Qed.

(** X16: what [sanitizeInput] returns contains none of the five characters
    it strips and is never longer than its input, in bytes and in code
    units.  Sanitizing a second time amounts to trimming once more, and on a
    string without those characters [sanitizeInput] is [trim].  It is not
    idempotent: stripping can uncover white space at the ends, as on the
    input [< a], which gives [ a] and then [a]. *)
Theorem sanitizeInput_strips input :
  forallb (fun c => negb (dangerous c)) (chars (sanitizeInput input)) = true
  /\ (String.length (sanitizeInput input) <= String.length input)%nat
  /\ JS.length (sanitizeInput input) <= JS.length input
  /\ sanitizeInput (sanitizeInput input) = JS.trim (sanitizeInput input)
  /\ (forallb (fun c => negb (dangerous c)) (chars input) = true ->
      sanitizeInput input = JS.trim input)
  /\ (sanitizeInput "< a" = " a"
      /\ sanitizeInput (sanitizeInput "< a") = "a"
      /\ sanitizeInput (sanitizeInput "< a") <> sanitizeInput "< a").
Proof.
  assert (Hclean : forall s,
             forallb (fun c => negb (dangerous c)) (chars s) = true ->
             sanitizeInput s = JS.trim s).
  { intros s H. unfold sanitizeInput. apply strip_id.
    destruct (trim_segment s) as (pre & post & Hseg).
    rewrite Hseg, !chars_app, !forallb_app in H.
    apply andb_true_iff in H as [_ H]. now apply andb_true_iff in H as [H _]. }
  assert (Hsafe : forallb (fun c => negb (dangerous c)) (chars (sanitizeInput input))
                  = true).
  { unfold sanitizeInput. rewrite strip_chars. apply forallb_forall.
    intros c Hc. now apply filter_In in Hc as [_ Hc]. }
  destruct (trim_segment input) as (pre & post & Hseg).
  split; [exact Hsafe|]. split; [|split; [|split; [now apply Hclean|split]]].
  - unfold sanitizeInput. rewrite <- !length_chars, strip_chars.
    etransitivity; [apply filter_length_le|].
    rewrite Hseg at 2. rewrite !chars_app, !length_app. lia.
  - unfold sanitizeInput. etransitivity; [apply strip_length|].
    rewrite Hseg at 2. rewrite !length_append.
    pose proof (length_nonneg pre). pose proof (length_nonneg post). lia.
  - apply Hclean.
  - split; [reflexivity|]. split; [reflexivity|discriminate].
Qed.

(** On a well-formed code every measure of length is the number of bytes. *)
Lemma code_char_measure a b c : code_char a = true -> is_selector a b c = false.
Proof.
  intros H. unfold is_selector.
  replace (N.eqb (N_of_ascii a) 239) with false; [reflexivity|].
  destruct a as [b0 b1 b2 b3 b4 b5 b6 b7].
  destruct b0, b1, b2, b3, b4, b5, b6, b7; vm_compute in H |- *; congruence.
Qed.

Lemma isLength_measure_code s :
  forallb code_char (chars s) = true ->
  isLength_measure s = Z.of_nat (String.length s).
Proof.
  induction s as [|a r IH]; [reflexivity|].
  intros H. simpl in H. apply andb_true_iff in H as [Ha Hr].
  change (isLength_measure (String a r))
    with ((if JS.units a =? 0 then 0
           else match r with
                | String b (String c _) => if is_selector a b c then 0 else 1
                | _ => 1
                end) + isLength_measure r).
  rewrite (code_char_units a Ha), (IH Hr). simpl Z.eqb. cbv iota.
  assert (Hone : match r with
                 | String b (String c _) => if is_selector a b c then 0 else 1
                 | _ => 1
                 end = 1).
  { destruct r as [|b [|c r']]; try reflexivity. now rewrite code_char_measure. }
  rewrite Hone. simpl String.length. lia.
Qed.

Lemma validCode_spec c :
  validateShortCode c = [] <-> validCode c.
Proof.
  unfold validateShortCode, validCode. split.
  - intros H. apply app_eq_nil in H as [_ H]. apply app_eq_nil in H as [H1 H2].
    destruct (code_match c) eqn:Hm; [|discriminate].
    destruct ((3 <=? isLength_measure c) && (isLength_measure c <=? 20)) eqn:E;
      [|discriminate].
    apply andb_true_iff in Hm as [_ Hm].
    rewrite (isLength_measure_code c Hm) in E. rewrite (length_code c Hm).
    apply andb_true_iff in E as [Ha Hb]. apply Z.leb_le in Ha, Hb. auto.
  - intros [Hm [Ha Hb]]. rewrite Hm.
    pose proof Hm as Hm'. apply andb_true_iff in Hm' as [_ Hm'].
    rewrite (isLength_measure_code c Hm'). rewrite (length_code c Hm') in Ha, Hb.
    apply Z.leb_le in Ha, Hb. rewrite Ha, Hb. simpl.
    destruct (String.eqb c "") eqn:E; [|reflexivity].
    apply String.eqb_eq in E. subst. discriminate.
Qed.

(** X17: the route validator for short codes and the schema agree: a code
    passes [validateShortCode] exactly when it meets the schema's three
    constraints (3 to 20 characters among letters, digits, hyphen,
    underscore), and the code of every document that [save] has accepted
    passes it, so that no stored link is out of reach of the routes that
    validate their [shortCode] parameter. *)
Theorem route_and_schema_agree_on_codes :
  (forall c, validateShortCode c = [] <-> validCode c)
  /\ (forall isURL fuel w s nanoid u u' s',
         save isURL fuel w s nanoid u = Some (Ok (u', s')) ->
         validateShortCode (shortCode u') = []).
Proof.
  split; [exact validCode_spec|].
  intros isURL fuel w s nanoid u u' s' H.
  apply save_ok_inv in H as (Hv & Hpre & _).
  apply validationErrors_nil in Hv as (_ & _ & Hne & Hlen & Hm & _).
  rewrite (preSave_with_code fuel w s nanoid u Hne) in Hpre.
  injection Hpre as <-. apply validCode_spec. now split.
Qed.

(** X18: [isUniqueVisitor] is meant to be asked before the event is stored.
    With no stored event it answers true; an event that is itself among the
    stored ones, less than 24 hours old, is never a unique visitor; and
    storing more events can only turn the answer from true to false. *)
Theorem isUniqueVisitor_before_saving now events this :
  isUniqueVisitor now [] this = true
  /\ (In this events -> now - 86400000 <= timestamp this ->
      isUniqueVisitor now events this = false)
  /\ (forall more, isUniqueVisitor now (events ++ more) this = true ->
                   isUniqueVisitor now events this = true).
Proof.
  split; [reflexivity|]. split.
  - intros Hin Ht.
    destruct (isUniqueVisitor now events this) eqn:E; [|reflexivity].
    pose proof (proj1 (isUniqueVisitor_spec now events this) E this Hin eq_refl eq_refl).
    lia.
  - intros more H. apply isUniqueVisitor_spec. intros e He.
    apply (proj1 (isUniqueVisitor_spec now (events ++ more) this) H).
    apply in_or_app. now left.
Qed.

End ValidationFacts.

(** ** Sorting and counting *)

Module LibFacts.

Import Lib.

Lemma insertDesc_In {A} (key : A -> Z) a l x :
  In x (insertDesc key a l) <-> x = a \/ In x l.
Proof.
  induction l as [|b r IH]; simpl; [intuition|].
  destruct (key b <? key a); simpl; [intuition|].
  rewrite IH. intuition.
Qed.

Lemma insertDesc_length {A} (key : A -> Z) a l :
  List.length (insertDesc key a l) = S (List.length l).
Proof.
  induction l as [|b r IH]; simpl; [reflexivity|].
  destruct (key b <? key a); simpl; [reflexivity|now rewrite IH].
Qed.

Lemma insertDesc_sorted {A} (key : A -> Z) a l :
  sortedDesc key l -> sortedDesc key (insertDesc key a l).
Proof.
  induction l as [|b r IH]; simpl; [intuition|].
  intros [Hb Hr]. destruct (key b <? key a) eqn:E; simpl.
  - apply Z.ltb_lt in E. split; [|now split].
    intros x [<-|Hx]; [lia|]. specialize (Hb x Hx). lia.
  - apply Z.ltb_ge in E. split; [|now apply IH].
    intros x Hx. apply insertDesc_In in Hx as [->|Hx]; [exact E|now apply Hb].
Qed.

Lemma sortDesc_In {A} (key : A -> Z) l x : In x (sortDesc key l) <-> In x l.
Proof.
  unfold sortDesc. induction l as [|a r IH]; simpl; [reflexivity|].
  rewrite insertDesc_In, IH. intuition.
Qed.

Lemma sortDesc_length {A} (key : A -> Z) l :
  List.length (sortDesc key l) = List.length l.
Proof.
  unfold sortDesc. induction l as [|a r IH]; simpl; [reflexivity|].
  now rewrite insertDesc_length, IH.
Qed.

Lemma sortDesc_sorted {A} (key : A -> Z) l : sortedDesc key (sortDesc key l).
Proof.
  unfold sortDesc. induction l as [|a r IH]; simpl; [exact I|].
  now apply insertDesc_sorted.
Qed.

Lemma In_firstn {A} n (l : list A) x : In x (firstn n l) -> In x l.
Proof.
  revert l. induction n as [|n IH]; intros [|a r]; simpl; try contradiction.
  intros [->|H]; [now left|right; now apply IH].
Qed.

Lemma In_skipn {A} n (l : list A) x : In x (skipn n l) -> In x l.
Proof.
  revert l. induction n as [|n IH]; intros l; [trivial|].
  destruct l as [|a r]; simpl; [trivial|]. intros H. right. now apply IH.
Qed.

Lemma sortedDesc_skipn {A} (key : A -> Z) n :
  forall l, sortedDesc key l -> sortedDesc key (skipn n l).
Proof.
  induction n as [|n IH]; intros l H; [exact H|].
  destruct l as [|a r]; [exact I|]. simpl. apply IH. apply H.
Qed.

Lemma sortedDesc_firstn {A} (key : A -> Z) n :
  forall l, sortedDesc key l -> sortedDesc key (firstn n l).
Proof.
  induction n as [|n IH]; intros l H; [exact I|].
  destruct l as [|a r]; [exact I|]. simpl. destruct H as [Ha Hr]. split.
  - intros b Hb. apply Ha. now apply In_firstn in Hb.
  - now apply IH.
Qed.

(** *** Counting objects *)

Lemma total_incr k m : total (incr k m) = S (total m).
Proof.
  induction m as [|[k' n] r IH]; simpl; [reflexivity|].
  destruct (String.eqb k' k); simpl; [reflexivity|]. rewrite IH. lia.
Qed.

Lemma lookup_incr k j m :
  lookup j (incr k m) = if String.eqb k j then S (lookup j m) else lookup j m.
Proof.
  induction m as [|[k' n] r IH]; simpl.
  - now destruct (String.eqb k j).
  - destruct (String.eqb k' k) eqn:E; simpl.
    + apply String.eqb_eq in E. subst k'. now destruct (String.eqb k j).
    + destruct (String.eqb k' j) eqn:Ej; [|exact IH].
      apply String.eqb_eq in Ej. subst k'.
      rewrite String.eqb_sym in E. now rewrite E.
Qed.

Lemma total_bump k m :
  total (bump k m) = if inherited k then total m else S (total m).
Proof. unfold bump. destruct (inherited k); [reflexivity|apply total_incr]. Qed.

Lemma lookup_bump k j m :
  lookup j (bump k m)
  = if negb (inherited k) && String.eqb k j then S (lookup j m) else lookup j m.
Proof. unfold bump. destruct (inherited k); [reflexivity|apply lookup_incr]. Qed.

Lemma total_fold {A} (key : A -> string) l m :
  total (fold_left (fun m a => bump (key a) m) l m)
  = (total m + List.length (filter (fun a => negb (inherited (key a))) l))%nat.
Proof.
  revert m. induction l as [|a l IH]; intros m; simpl; [lia|].
  rewrite IH, total_bump. destruct (inherited (key a)); simpl; lia.
Qed.

Lemma lookup_fold {A} (key : A -> string) l m j :
  lookup j (fold_left (fun m a => bump (key a) m) l m)
  = (lookup j m
     + List.length (filter (fun a => negb (inherited (key a)) && String.eqb (key a) j)
                           l))%nat.
Proof.
  revert m. induction l as [|a l IH]; intros m; simpl; [lia|].
  rewrite IH, lookup_bump.
  destruct (negb (inherited (key a)) && String.eqb (key a) j); simpl; lia.
Qed.

Lemma filter_all {A} (f : A -> bool) l :
  (forall a, In a l -> f a = true) -> filter f l = l.
Proof.
  induction l as [|a l IH]; simpl; intros H; [reflexivity|].
  rewrite (H a (or_introl eq_refl)). f_equal. apply IH. intros b Hb. apply H. now right.
Qed.

Lemma filter_length {A} (f : A -> bool) l :
  (List.length (filter f l) <= List.length l)%nat.
Proof. induction l as [|a l IH]; simpl; [lia|]. destruct (f a); simpl; lia. Qed.

(** The counts of a counting object add up to the number of items counted
    under a name that is not inherited, and each key's count is the number
    of such items with that key. *)
Lemma countBy_total {A} (key : A -> string) l :
  total (countBy key l)
  = List.length (filter (fun a => negb (inherited (key a))) l).
Proof. unfold countBy. now rewrite total_fold. Qed.

Lemma countBy_total_le {A} (key : A -> string) l :
  (total (countBy key l) <= List.length l)%nat.
Proof. rewrite countBy_total. apply filter_length. Qed.

Lemma countBy_total_plain {A} (key : A -> string) l :
  (forall a, In a l -> inherited (key a) = false) ->
  total (countBy key l) = List.length l.
Proof.
  intros H. rewrite countBy_total, filter_all; [reflexivity|].
  intros a Ha. now rewrite (H a Ha).
Qed.

Lemma countBy_lookup {A} (key : A -> string) l j :
  lookup j (countBy key l)
  = List.length (filter (fun a => negb (inherited (key a)) && String.eqb (key a) j) l).
Proof. unfold countBy. now rewrite lookup_fold. Qed.

Lemma countBy_inherited {A} (key : A -> string) l j :
  inherited j = true -> lookup j (countBy key l) = 0%nat.
Proof.
  intros Hj. rewrite countBy_lookup.
  induction l as [|a l IH]; simpl; [reflexivity|].
  destruct (String.eqb (key a) j) eqn:E.
  - apply String.eqb_eq in E. rewrite E, Hj. exact IH.
  - rewrite andb_false_r. exact IH.
Qed.

Lemma distinct_le l : (distinct l <= List.length l)%nat.
Proof.
  unfold distinct. apply NoDup_incl_length; [apply NoDup_nodup|].
  intros x Hx. now apply nodup_In in Hx.
Qed.

Lemma distinct_pos l : l <> [] -> (0 < distinct l)%nat.
Proof.
  unfold distinct. destruct l as [|a r]; [congruence|]. intros _.
  assert (H : In a (nodup string_dec (a :: r))) by (apply nodup_In; now left).
  destruct (nodup string_dec (a :: r)); [contradiction|simpl; lia].
Qed.

Lemma ceilDiv_bounds a b :
  (0 < b)%nat ->
  (a <= ceilDiv a b * b)%nat /\ (ceilDiv a b * b < a + b)%nat.
Proof.
  intros Hb. unfold ceilDiv.
  pose proof (Nat.div_mod_eq (a + b - 1) b) as Hdm.
  pose proof (Nat.mod_upper_bound (a + b - 1) b ltac:(lia)) as Hm.
  nia.
Qed.

End LibFacts.

(** ** Listing a user's links *)

Module ListingFacts.

Import Db Schema UrlController UrlHandlers Lib LibFacts.

(** X19: one page of [getUserUrls].  With both reads answered, the page
    holds links of the requesting user only, all active, newest first; it
    has [limit] links, or what is left of the user's active links after the
    pages before it; [total] counts all the user's active links and [pages]
    is [total / limit] rounded up; a page after the last is empty and every
    page up to the last is not. *)
Theorem getUserUrls_page rf user query_page query_limit s :
  rf OpFind = None ->
  rf OpCountDocuments = None ->
  let page := match query_page with Some p => p | None => 1%positive end in
  let limit := match query_limit with Some l => l | None => 10%positive end in
  let total := List.length (filter (userActiveQuery user) s) in
  let pages := ceilDiv total (Pos.to_nat limit) in
  exists data,
    getUserUrls rf user query_page query_limit s
    = Listed data (mkPagination page limit total pages)
    /\ List.length data
       = Nat.min (Pos.to_nat limit)
                 (total - (Pos.to_nat page - 1) * Pos.to_nat limit)
    /\ (forall u, In u data ->
                  In u s /\ userId u = Some user /\ isActive u = true)
    /\ sortedDesc createdAt data
    /\ ((pages < Pos.to_nat page)%nat -> data = [])
    /\ ((Pos.to_nat page <= pages)%nat -> data <> []).
Proof.
  intros Hf Hc page limit total pages.
  unfold getUserUrls, reading. rewrite Hf, Hc. fold page limit total pages.
  eexists. split; [reflexivity|].
  pose proof (Pos2Nat.is_pos limit) as Hl.
  pose proof (Pos2Nat.is_pos page) as Hp.
  destruct (ceilDiv_bounds total (Pos.to_nat limit) Hl) as [Hlo Hhi]. fold pages in Hlo, Hhi.
  assert (Hlen : List.length
                   (firstn (Pos.to_nat limit)
                      (skipn ((Pos.to_nat page - 1) * Pos.to_nat limit)
                         (sortDesc createdAt (filter (userActiveQuery user) s))))
                 = Nat.min (Pos.to_nat limit)
                           (total - (Pos.to_nat page - 1) * Pos.to_nat limit)).
  { now rewrite length_firstn, length_skipn, sortDesc_length. }
  split; [exact Hlen|]. split; [|split; [|split]].
  - intros u Hu. apply In_firstn, In_skipn, sortDesc_In, filter_In in Hu as [Hin Hq].
    unfold userActiveQuery in Hq. apply andb_true_iff in Hq as [Ho Ha].
    destruct (userId u) as [o|]; [|discriminate].
    apply Nat.eqb_eq in Ho. subst. auto.
  - apply sortedDesc_firstn, sortedDesc_skipn, sortDesc_sorted.
  - intros Hlt. apply length_zero_iff_nil. rewrite Hlen.
    destruct (Pos.to_nat page) as [|q]; [lia|].
    replace (S q - 1)%nat with q by lia.
    assert (pages * Pos.to_nat limit <= q * Pos.to_nat limit)%nat
      by (apply Nat.mul_le_mono_r; lia).
    lia.
  - intros Hle Hnil. apply length_zero_iff_nil in Hnil. rewrite Hlen in Hnil.
    destruct (Pos.to_nat page) as [|q]; [lia|].
    replace (S q - 1)%nat with q in Hnil by lia.
    assert (S q * Pos.to_nat limit <= pages * Pos.to_nat limit)%nat
      by (apply Nat.mul_le_mono_r; lia).
    simpl in H. lia.
Qed.

Lemma getUserUrls_page_witness :
  exists data,
    getUserUrls (fun _ => None) 42 (Some 2%positive) (Some 1%positive)
                [Sample.owned 1 42 "abc123" "https://example.com";
                 Sample.owned 2 42 "def456" "https://example.org"]
    = Listed data (mkPagination 2 1 2 2)
    /\ List.length data = Nat.min 1 (2 - (2 - 1) * 1)
    /\ (forall u, In u data ->
                  In u [Sample.owned 1 42 "abc123" "https://example.com";
                        Sample.owned 2 42 "def456" "https://example.org"]
                  /\ userId u = Some 42%nat /\ isActive u = true)
    /\ sortedDesc createdAt data
    /\ ((2 < 2)%nat -> data = [])
    /\ ((2 <= 2)%nat -> data <> []).
Proof.
  exact (getUserUrls_page (fun _ => None) 42 (Some 2%positive) (Some 1%positive)
           [Sample.owned 1 42 "abc123" "https://example.com";
            Sample.owned 2 42 "def456" "https://example.org"] eq_refl eq_refl).
Defined.

End ListingFacts.

(** ** Per-link analytics of UrlController *)

Module AnalyticsFacts.

Import Db Schema UrlController UrlHandlers Lib LibFacts.

(** X20: [UrlController.getUrlAnalytics] never sends a report.  For a
    stored link that the requester may read (its owner and, for a link
    created without an account, every authenticated user) the handler throws
    on [url.clickHistory.filter], [clickHistory] being no path of the
    schema, and the error goes to [next]; for a link owned by someone else
    the answer is 404.  Neither the time frame nor the link's being active
    plays a part. *)
Theorem getUrlAnalytics_readers isoDay hourKey rf now user query_timeframe s u :
  rf OpFindOneRead = None ->
  uniqueIndexes s ->
  In u s ->
  getUrlAnalytics isoDay hourKey rf now (_id u) user query_timeframe s
  = (if match userId u with
        | Some owner => Nat.eqb owner user
        | None => true
        end
     then AnalyticsNext
            (TypeError "Cannot read properties of undefined (reading 'filter')")
     else AnalyticsNotFound)
  /\ forall rf' now' id' user' timeframe' s' url timeframe analytics,
       getUrlAnalytics isoDay hourKey rf' now' id' user' timeframe' s'
       <> AnalyticsJson url timeframe analytics.
Proof.
  intros Hf [Hids _] Hin. split.
  - unfold getUrlAnalytics, reading. rewrite Hf.
    destruct (match userId u with Some owner => Nat.eqb owner user | None => true end)
      eqn:Hr.
    + assert (Hfind : findOne (readableQuery (_id u) user) s = Some u).
      { apply (find_unique _id); auto.
        - unfold readableQuery. now rewrite Nat.eqb_refl, Hr.
        - intros b _ Hb. unfold readableQuery in Hb.
          apply andb_true_iff in Hb as [Hb _]. now apply Nat.eqb_eq in Hb. }
      now rewrite Hfind.
    + assert (Hfind : findOne (readableQuery (_id u) user) s = None).
      { apply find_none_all. intros v Hv. unfold readableQuery.
        destruct (Nat.eqb (_id v) (_id u)) eqn:E; [|reflexivity].
        apply Nat.eqb_eq in E.
        rewrite (nodup_map_inj _id s v u Hids Hv Hin E). exact Hr. }
      now rewrite Hfind.
  - intros rf' now' id' user' timeframe' s' url timeframe analytics.
    unfold getUrlAnalytics.
    destruct (reading rf' OpFindOneRead _) as [[v|]|e]; discriminate.
Qed.

Lemma getUrlAnalytics_readers_witness :
  let dead := set_isActive false (Sample.link 1 "abc123" "https://example.com" true None) in
  getUrlAnalytics (fun _ => "1970-01-01") (fun _ => "0") (fun _ => None) 1000
                  1 42 (Some "7d") [dead]
  = AnalyticsNext (TypeError "Cannot read properties of undefined (reading 'filter')").
Proof.
  intros dead.
  refine (proj1 (getUrlAnalytics_readers (fun _ => "1970-01-01") (fun _ => "0")
                   (fun _ => None) 1000 42 (Some "7d") [dead] dead eq_refl _ _)).
  - split; repeat constructor; simpl; intuition.
  - now left.
Defined.

End AnalyticsFacts.

(** ** The analytics controller's per-link report *)

Module ReportFacts.

Import Db AnalyticsControllers LinkReport Lib LibFacts.

Lemma sortedDesc_map {A B} (f : A -> B) (key : B -> Z) (l : list A) :
  sortedDesc (fun a => key (f a)) l -> sortedDesc key (map f l).
Proof.
  induction l as [|a r IH]; simpl; [trivial|].
  intros [Ha Hr]. split; [|now apply IH].
  intros b Hb. apply in_map_iff in Hb as (x & <- & Hx). now apply Ha.
Qed.

(** X22: who may read a link's report through the analytics controller.
    For a stored code, with the queries answered, the request is refused
    with 403 exactly when it carries a user and the link has an owner and
    the two differ; a request without a user, which is what the route as
    mounted (no authentication in front) always delivers, reads the report of
    any link, owned or not. *)
Theorem report_access isoDay shift now req_user code query_timeframe urls events url :
  findOne (byShortCode code) urls = Some url ->
  (getUrlAnalytics isoDay shift None now req_user code query_timeframe urls events
   = ReportStatus 403 "Access denied"
   <-> exists me owner,
         req_user = Some me /\ userId url = Some owner /\ owner <> me)
  /\ exists r,
       getUrlAnalytics isoDay shift None now None code query_timeframe urls events
       = ReportJson r
       /\ rp_shortCode r = shortCode url
       /\ rp_originalUrl r = originalUrl url.
Proof.
  intros Hfind. unfold getUrlAnalytics. rewrite Hfind. split.
  - destruct req_user as [me|], (userId url) as [owner|]; simpl.
    + destruct (Nat.eqb owner me) eqn:E; simpl; split.
      * discriminate.
      * intros (me' & owner' & [= <-] & [= <-] & Hne).
        apply Nat.eqb_eq in E. contradiction.
      * intros _. exists me, owner. apply Nat.eqb_neq in E. auto.
      * reflexivity.
    + split; [discriminate|]. intros (? & ? & _ & [=] & _).
    + split; [discriminate|]. intros (? & ? & [=] & _).
    + split; [discriminate|]. intros (? & ? & [=] & _).
  - eexists. split; [reflexivity|]. split; reflexivity.
Qed.

Lemma report_access_witness :
  let l := Sample.owned 1 42 "abc123" "https://example.com" in
  exists r,
    getUrlAnalytics (fun _ => "1970-01-01") (fun _ d => d - 1000) None 5000 None
                    "abc123" None [l] []
    = ReportJson r
    /\ rp_shortCode r = shortCode l
    /\ rp_originalUrl r = originalUrl l.
Proof.
  intros l.
  exact (proj2 (report_access (fun _ => "1970-01-01") (fun _ d => d - 1000) 5000
                  None "abc123" None [l] [] l eq_refl)).
Defined.

(** X23: the figures of that report.  [uniqueClicks] (distinct addresses)
    never exceeds [totalClicks] and is positive as soon as there is a click;
    [recentClicks] holds the ten latest events, or all of them if there are
    fewer, latest first; an absent time frame is reported as 7d.  The counts
    per day, country, referrer and device never add up to more than
    [totalClicks], and to exactly that when no event is counted under a name
    that objects inherit; under such a name no count is kept at all. *)
Theorem report_figures isoDay shift failing now req_user code query_timeframe
        urls events r :
  getUrlAnalytics isoDay shift failing now req_user code query_timeframe urls events
  = ReportJson r ->
  (rp_uniqueClicks r <= rp_totalClicks r)%nat
  /\ (rp_totalClicks r <= List.length events)%nat
  /\ ((0 < rp_totalClicks r)%nat -> (0 < rp_uniqueClicks r)%nat)
  /\ List.length (rp_recentClicks r) = Nat.min 10 (rp_totalClicks r)
  /\ sortedDesc recent_timestamp (rp_recentClicks r)
  /\ rp_timeframe r = match query_timeframe with Some t => t | None => "7d" end
  /\ (total (rp_clicksByDate r) <= rp_totalClicks r
      /\ total (rp_clicksByCountry r) <= rp_totalClicks r
      /\ total (rp_clicksByReferrer r) <= rp_totalClicks r
      /\ total (rp_clicksByDevice r) <= rp_totalClicks r)%nat
  /\ (forallb (plainEvent isoDay) events = true ->
      total (rp_clicksByDate r) = rp_totalClicks r
      /\ total (rp_clicksByCountry r) = rp_totalClicks r
      /\ total (rp_clicksByReferrer r) = rp_totalClicks r
      /\ total (rp_clicksByDevice r) = rp_totalClicks r)
  /\ (forall k, inherited k = true ->
                lookup k (rp_clicksByCountry r) = 0%nat
                /\ lookup k (rp_clicksByReferrer r) = 0%nat
                /\ lookup k (rp_clicksByDevice r) = 0%nat).
Proof.
  unfold getUrlAnalytics. destruct failing; [discriminate|].
  destruct (findOne (byShortCode code) urls) as [url|]; [|discriminate].
  destruct (match req_user with Some _ => _ | None => _ end); [discriminate|].
  intros [= <-].
  cbn [rp_totalClicks rp_uniqueClicks rp_clicksByDate rp_clicksByCountry
       rp_clicksByReferrer rp_clicksByDevice rp_recentClicks rp_timeframe].
  set (an := sortDesc _ _).
  assert (Han : forall a, In a an -> In a events).
  { intros a Ha. unfold an in Ha. apply sortDesc_In in Ha.
    now apply filter_In in Ha as [Ha _]. }
  split; [etransitivity; [apply distinct_le|]; now rewrite length_map|].
  split; [unfold an; rewrite sortDesc_length; apply filter_length|].
  split.
  { intros Hpos. apply distinct_pos. destruct an; [simpl in Hpos; lia|discriminate]. }
  split.
  { rewrite length_map.
    change (List.length (firstn 10 an) = Nat.min 10 (List.length an)).
    apply length_firstn. }
  split.
  { apply sortedDesc_map.
    change (sortedDesc (fun a => timestamp (event_core a)) (firstn 10 an)).
    apply sortedDesc_firstn. apply sortDesc_sorted. }
  split; [reflexivity|].
  split; [repeat split; apply countBy_total_le|].
  split.
  - intros Hplain. rewrite forallb_forall in Hplain.
    repeat split; apply countBy_total_plain; intros a Hin;
      specialize (Hplain a (Han a Hin)); unfold plainEvent in Hplain;
      repeat (apply andb_true_iff in Hplain as [Hplain ?]);
      now apply negb_true_iff.
  - intros k Hk. repeat split; now apply countBy_inherited.
Qed.

Lemma report_figures_witness :
  let l := Sample.owned 1 42 "abc123" "https://example.com" in
  let events := [mkEvent (mkAnalytics 1 "1.1.1.1" 4500) (Some "FR") None (Some "mobile");
                 mkEvent (mkAnalytics 1 "1.1.1.1" 4800) None (Some "toString") None;
                 mkEvent (mkAnalytics 2 "2.2.2.2" 4900) None None None] in
  exists r,
    getUrlAnalytics (fun _ => "1970-01-01") (fun _ d => d - 1000) None 5000 None
                    "abc123" None [l] events
    = ReportJson r
    /\ rp_totalClicks r = 2%nat
    /\ rp_uniqueClicks r = 1%nat
    /\ total (rp_clicksByReferrer r) = 1%nat
    /\ (rp_uniqueClicks r <= rp_totalClicks r)%nat
    /\ List.length (rp_recentClicks r) = Nat.min 10 (rp_totalClicks r).
Proof.
  intros l events. eexists. split; [reflexivity|]. split; [reflexivity|].
  split; [reflexivity|]. split; [reflexivity|].
  pose proof (report_figures (fun _ => "1970-01-01") (fun _ d => d - 1000) None 5000
                None "abc123" None [l] events _ eq_refl) as H.
  split; [exact (proj1 H)|].
  exact (proj1 (proj2 (proj2 (proj2 H)))).
Defined.

End ReportFacts.

(** ** Bulk shortening *)

Module BulkFacts.

Import Db Schema UrlController UrlHandlers SchemaFacts ShortenFacts CreationFacts.

(** What the pre-save hook leaves of a document. *)
Lemma preSave_keeps fuel w s nanoid u u' :
  preSave fuel w s nanoid u = Some (Ok u') ->
  _id u' = _id u /\ originalUrl u' = originalUrl u /\ userId u' = userId u
  /\ isActive u' = isActive u /\ clicks u' = clicks u.
Proof.
  unfold preSave. destruct (String.eqb (shortCode u) "").
  - destruct (nanoidLoop fuel w s nanoid 0) as [[[code i]|e]|]; try discriminate.
    intros [= <-]. repeat split.
  - intros [= <-]. repeat split.
Qed.

Lemma bulkLoop_inv isURL validateUrl fuel w gen nanoid user urls :
  forall i acc s acc' s',
    bulkLoop isURL validateUrl fuel w gen nanoid user urls i acc s = Some (acc', s') ->
    exists added,
      acc' = (acc ++ added)%list
      /\ s' = (s ++ added)%list
      /\ (List.length added <= List.length urls)%nat
      /\ (forall u, In u added -> bulkMade validateUrl user urls u)
      /\ (uniqueIndexes s -> uniqueIndexes s').
Proof.
  induction urls as [|entry rest IH]; intros i acc s acc' s'; simpl.
  - intros [= <- <-]. exists []. rewrite !app_nil_r.
    split; [reflexivity|]. split; [reflexivity|]. split; [simpl; lia|].
    split; [intros ? []|auto].
  - assert (Hskip : forall j,
               bulkLoop isURL validateUrl fuel w gen nanoid user rest j acc s
               = Some (acc', s') ->
               exists added,
                 acc' = (acc ++ added)%list /\ s' = (s ++ added)%list
                 /\ (List.length added <= S (List.length rest))%nat
                 /\ (forall u, In u added ->
                               bulkMade validateUrl user (entry :: rest) u)
                 /\ (uniqueIndexes s -> uniqueIndexes s')).
    { intros j H. destruct (IH _ _ _ _ _ H) as (added & -> & -> & Hlen & Hall & Hu).
      exists added. split; [reflexivity|]. split; [reflexivity|].
      split; [lia|]. split; [|exact Hu].
      intros u Hin. destruct (Hall u Hin) as (H1 & H2 & H3 & url & Hurl & Hrest).
      split; [exact H1|]. split; [exact H2|]. split; [exact H3|].
      exists url. split; [now right|exact Hrest]. }
    destruct entry as [url|]; [|apply Hskip].
    destruct (String.eqb url "") eqn:Ee; [apply Hskip|].
    destruct (validateUrl url) eqn:Ev; [|apply Hskip]. simpl orb. cbv iota.
    destruct (save isURL fuel w s nanoid _) as [[[newUrl s1]|e]|] eqn:Hs;
      [|apply Hskip|discriminate].
    intros H. destruct (IH _ _ _ _ _ H) as (added & -> & -> & Hlen & Hall & Hu).
    apply save_ok_inv in Hs as (_ & Hpre & _ & Hdup & ->).
    apply preSave_keeps in Hpre as (Hid & Ho & Hown & Hact & Hcl).
    change (_id (cast (bulkDoc w user url (gen i) (freshId s)))) with (freshId s) in Hid.
    rewrite (write_fresh s newUrl Hid) in *.
    exists (newUrl :: added). rewrite <- !app_assoc. simpl.
    split; [reflexivity|]. split; [reflexivity|]. split; [lia|]. split.
    + intros u [<-|Hin].
      * split; [exact Hown|]. split; [exact Hact|]. split; [exact Hcl|].
        exists url.
        split; [now left|]. split; [now apply String.eqb_neq|]. split; [exact Ev|exact Ho].
      * destruct (Hall u Hin) as (H1 & H2 & H3 & url' & Hurl & Hrest).
        split; [exact H1|]. split; [exact H2|]. split; [exact H3|].
        exists url'. split; [now right|exact Hrest].
    + intros [Hids Hcodes]. rewrite <- app_assoc in Hu. apply Hu.
      split; rewrite map_app; simpl; apply nodup_snoc; auto.
      * intros Hin. apply in_map_iff in Hin as (v & Hv & Hin).
        pose proof (freshId_above s v Hin). lia.
      * intros Hin. apply in_map_iff in Hin as (v & Hv & Hin).
        pose proof (duplicateCode_fresh s newUrl v Hid Hdup Hin) as Hne.
        apply String.eqb_neq in Hne. contradiction.
Qed.

(** X24: a bulk request either is refused and writes nothing (no array, an
    empty one, more than 50 entries, no user), or answers with what it
    created: at most one link per entry and never more than 50, each owned
    by the requesting user, active, without clicks and pointing to an entry
    that [validateUrl] accepts; the created links are appended to the
    collection in order, nothing else in it is touched, and its unique
    indexes are kept: an entry whose generated code is already taken is
    dropped, not stored twice. *)
Theorem bulkShorten_outcomes isURL validateUrl fuel w gen nanoid req_user body_urls
        s r s' :
  bulkShorten isURL validateUrl fuel w gen nanoid req_user body_urls s = Some (r, s') ->
  match r with
  | BulkNext _ => s' = s
  | BulkDone processed total data =>
      exists user urls,
        req_user = Some user /\ body_urls = Some urls
        /\ total = List.length urls
        /\ processed = List.length data
        /\ (processed <= total <= 50)%nat
        /\ (0 < total)%nat
        /\ s' = (s ++ data)%list
        /\ (forall u, In u data -> bulkMade validateUrl user urls u)
        /\ (uniqueIndexes s -> uniqueIndexes s')
  end.
Proof.
  unfold bulkShorten.
  destruct body_urls as [[|entry rest]|]; try (now intros [= <- <-]).
  destruct (50 <? List.length (entry :: rest))%nat eqn:E; [now intros [= <- <-]|].
  destruct req_user as [user|]; [|now intros [= <- <-]].
  destruct (bulkLoop _ _ _ _ _ _ _ _ _ _ _) as [[data s1]|] eqn:Hloop; [|discriminate].
  intros [= <- <-].
  apply bulkLoop_inv in Hloop as (added & Hd & -> & Hlen & Hall & Hu).
  simpl in Hd. subst data. apply Nat.ltb_ge in E.
  exists user, (entry :: rest).
  split; [reflexivity|]. split; [reflexivity|]. split; [reflexivity|].
  split; [reflexivity|]. split; [simpl in *; lia|]. split; [simpl; lia|].
  split; [reflexivity|]. split; [exact Hall|exact Hu].
Qed.

Lemma bulkShorten_outcomes_witness :
  exists user urls,
    Some 42%nat = Some user
    /\ Some [Some "https://example.com"; None; Some "https://example.com"] = Some urls
    /\ 3%nat = List.length urls
    /\ 1%nat = List.length [createdDoc Sample.calm
                              (mkShortenReq "https://example.com" None None (Some 42%nat))
                              "code0000" 1]
    /\ (1 <= 3 <= 50)%nat
    /\ (0 < 3)%nat
    /\ [createdDoc Sample.calm
          (mkShortenReq "https://example.com" None None (Some 42%nat)) "code0000" 1]
       = ([] ++ [createdDoc Sample.calm
                   (mkShortenReq "https://example.com" None None (Some 42%nat))
                   "code0000" 1])%list
    /\ (forall u,
           In u [createdDoc Sample.calm
                   (mkShortenReq "https://example.com" None None (Some 42%nat))
                   "code0000" 1] ->
           bulkMade Sample.isURL user urls u)
    /\ (uniqueIndexes [] ->
        uniqueIndexes [createdDoc Sample.calm
                         (mkShortenReq "https://example.com" None None (Some 42%nat))
                         "code0000" 1]).
Proof.
  exact (bulkShorten_outcomes Sample.isURL Sample.isURL 3 Sample.calm
           (fun _ => "code0000") Sample.gen (Some 42%nat)
           (Some [Some "https://example.com"; None; Some "https://example.com"])
           []
           (BulkDone 1 3
              [createdDoc Sample.calm
                 (mkShortenReq "https://example.com" None None (Some 42%nat))
                 "code0000" 1])
           [createdDoc Sample.calm
              (mkShortenReq "https://example.com" None None (Some 42%nat))
              "code0000" 1]
           eq_refl).
Defined.

End BulkFacts.

(** ** Creation among concurrent requests *)

Module RaceFacts.

Import Db Schema UrlController SchemaFacts ShortenFacts CreationFacts.

(** X25: whatever other requests write while a creation is suspended, a 201
    answer means that the new document passed the unique index at the
    moment of its insert: it is appended to the collection as it stood then,
    no link of which held its code or its [_id], so that the unique indexes
    still hold afterwards.  A collision that slips past the existence checks
    ends in an error, never in two links with one code. *)
Theorem created_code_is_unique_at_insert isURL validateUrl fuel w other gen nanoid
        req s d s' :
  shortenUrl isURL validateUrl fuel w other gen nanoid req s = Some (Created d, s') ->
  exists before doc,
    s' = (before ++ [doc])%list
    /\ d = dataOf doc
    /\ (forall v, In v before ->
                  shortCode v <> data_shortCode d /\ _id v <> data_id d)
    /\ (uniqueIndexes before -> uniqueIndexes s').
Proof.
  intros H. apply shortenUrl_created_saved in H as (code & s3 & url & Hs & ->).
  apply save_create_inv in Hs as (_ & -> & Hdup & ->).
  set (doc := createdDoc w req code (freshId s3)) in *.
  assert (Hfresh : forall v, In v s3 ->
                             shortCode v <> shortCode doc /\ _id v <> _id doc).
  { intros v Hv. split.
    - apply String.eqb_neq. now apply (duplicateCode_fresh s3 doc v).
    - pose proof (freshId_above s3 v Hv). change (_id doc) with (freshId s3). lia. }
  exists s3, doc. split; [reflexivity|]. split; [reflexivity|].
  split; [exact Hfresh|].
  intros [Hids Hcodes]. split; rewrite map_app; simpl; apply nodup_snoc; auto.
  - intros Hin. apply in_map_iff in Hin as (v & Hv & Hin).
    now apply (proj2 (Hfresh v Hin)).
  - intros Hin. apply in_map_iff in Hin as (v & Hv & Hin).
    now apply (proj1 (Hfresh v Hin)).
Qed.

Lemma created_code_is_unique_at_insert_witness :
  let req := mkShortenReq "https://example.com" (Some "my-link") None None in
  exists before doc,
    [Sample.link 7 "my-link" "https://rival.example" true None;
     createdDoc Sample.calm req "code0000" 8]
    = (before ++ [doc])%list
    /\ dataOf (createdDoc Sample.calm req "code0000" 8) = dataOf doc
    /\ (forall v, In v before ->
                  shortCode v <> "code0000" /\ _id v <> 8%nat)
    /\ (uniqueIndexes before ->
        uniqueIndexes [Sample.link 7 "my-link" "https://rival.example" true None;
                       createdDoc Sample.calm req "code0000" 8]).
Proof.
  intros req.
  exact (created_code_is_unique_at_insert Sample.isURL Sample.isURL 5 Sample.calm
           Sample.rival Sample.gen Sample.gen req []
           (dataOf (createdDoc Sample.calm req "code0000" 8))
           [Sample.link 7 "my-link" "https://rival.example" true None;
            createdDoc Sample.calm req "code0000" 8]
           eq_refl).
Defined.

End RaceFacts.
